(** * Cheese camera device: capability probing and the format table

    A shallow embedding of [libcheese/cheese-camera-device.c]: the video
    format list of a [CheeseCameraDevice], the doubling and halving sweeps
    that expand a ranged resolution, the capability probe run at
    construction, [GInitable] finalization and the sorted format query.

    - A C [gint] is an integer of [Z]; where the C code multiplies or
      subtracts, the result is reduced to 32 bits in two's complement
      ([Gint]), which is what the compiled code computes when a signed
      operation overflows.
    - The two [while] loops of [cheese_camera_device_update_format_table]
      need not terminate, so every function that runs them takes a budget
      of iterations per loop and returns an [outcome].
    - GStreamer is outside the repository: [gst_parse_launch] and
      [gst_caps_intersect] are parameters of the probe, and a pipeline is
      what the probe observes of it.
    - GObject checks a construct property against the range it was
      registered with before it calls [set_property]; the API version is
      registered with the range 1 to 2.
    - The [g_return_val_if_fail (CHEESE_IS_CAMERA_DEVICE ...)] guards are
      left out (the argument is always a device), and messages are the
      untranslated ones. *)

From Stdlib Require Import ZArith List String Bool Lia Permutation Sorted.
Import ListNotations.
Local Open Scope Z_scope.

(** ** 32-bit signed integers ([gint]) *)

Module Gint.

Definition G_MININT : Z := -2147483648.
Definition G_MAXINT : Z := 2147483647.

Definition in_range (z : Z) : Prop := G_MININT <= z <= G_MAXINT.

(** Reduction of a mathematical result to the representable residue. *)
Definition wrap (z : Z) : Z := (z + 2147483648) mod 4294967296 - 2147483648.

Definition mul (a b : Z) : Z := wrap (a * b).
Definition sub (a b : Z) : Z := wrap (a - b).

(** C division truncates toward zero; dividing by 2 cannot overflow. *)
Definition div (a b : Z) : Z := Z.quot a b.

End Gint.

(** ** Results of running code that may loop or fault *)

Inductive outcome (A : Type) : Type :=
| Returns (a : A)   (* the call returned, leaving the state [a] *)
| Spins (a : A)     (* the iteration budget ran out in state [a] *)
| Crashes (a : A).  (* a NULL pointer was dereferenced in state [a] *)

Arguments Returns {A} a.
Arguments Spins {A} a.
Arguments Crashes {A} a.

(** Sequencing: [k] runs on the state of a run that returned; the state of
    a run that did not is handed on through [stuck]. *)
Definition bind {A B : Type} (m : outcome A) (k : A -> outcome B)
  (stuck : A -> B) : outcome B :=
  match m with
  | Returns a => k a
  | Spins a => Spins (stuck a)
  | Crashes a => Crashes (stuck a)
  end.

Definition state_of {A : Type} (m : outcome A) : A :=
  match m with
  | Returns a | Spins a | Crashes a => a
  end.

Definition returned {A : Type} (m : outcome A) : bool :=
  match m with
  | Returns _ => true
  | _ => false
  end.

Notation "x <- m ;; k" := (bind m (fun x => k) (fun x => x))
  (at level 61, m at next level, right associativity).

(** ** Data *)

(** [CheeseVideoFormat] (declared in cheese-camera-device.h): two [int]
    fields, written through [gint *] by [gst_structure_get_int]. *)
Record CheeseVideoFormat : Type := { width : Z; height : Z }.

Definition area (f : CheeseVideoFormat) : Z := width f * height f.

Record GError : Type := { domain : string; code : Z; message : string }.

(** [enum CheeseCameraDeviceError]. *)
Definition CHEESE_CAMERA_DEVICE_ERROR_UNKNOWN : Z := 0.
Definition CHEESE_CAMERA_DEVICE_ERROR_NOT_SUPPORTED : Z := 1.
Definition CHEESE_CAMERA_DEVICE_ERROR_UNSUPPORTED_CAPS : Z := 2.
Definition CHEESE_CAMERA_DEVICE_ERROR_FAILED_INITIALIZATION : Z := 3.

(** [cheese_camera_device_error_quark], as the string behind the quark. *)
Definition CHEESE_CAMERA_DEVICE_ERROR : string :=
  "cheese-camera-device-error-quark".

Definition supported_formats : list string :=
  [ "video/x-raw-rgb"%string; "video/x-raw-yuv"%string ].

Definition CHEESE_MAXIMUM_RATE : Z := 30.

(** The GStreamer values this file inspects.  [G_OTHER] stands for every
    other [GValue] type (lists, strings, fourccs, ...). *)
Inductive GValue : Type :=
| G_INT (n : Z)
| GST_INT_RANGE (min max : Z)
| GST_FRACTION (num den : Z)
| GST_FRACTION_RANGE (min_num min_den max_num max_den : Z)
| G_OTHER.

Record GstStructure : Type :=
  { structure_name : string; structure_fields : list (string * GValue) }.

(** A [GstCaps] is the sequence of its structures; the empty caps has none. *)
Definition GstCaps : Type := list GstStructure.

Record CheeseCameraDevicePrivate : Type :=
  { device_node : option string;
    uuid : option string;
    src : option string;
    name : option string;
    v4lapi_version : Z;
    caps : GstCaps;
    formats : list CheeseVideoFormat;
    construct_error : option GError }.

Definition set_formats (priv : CheeseCameraDevicePrivate)
  (l : list CheeseVideoFormat) : CheeseCameraDevicePrivate :=
  {| device_node := device_node priv; uuid := uuid priv; src := src priv;
     name := name priv; v4lapi_version := v4lapi_version priv;
     caps := caps priv; formats := l;
     construct_error := construct_error priv |}.

Definition set_caps (priv : CheeseCameraDevicePrivate) (c : GstCaps)
  : CheeseCameraDevicePrivate :=
  {| device_node := device_node priv; uuid := uuid priv; src := src priv;
     name := name priv; v4lapi_version := v4lapi_version priv;
     caps := c; formats := formats priv;
     construct_error := construct_error priv |}.

Definition set_construct_error (priv : CheeseCameraDevicePrivate)
  (e : option GError) : CheeseCameraDevicePrivate :=
  {| device_node := device_node priv; uuid := uuid priv; src := src priv;
     name := name priv; v4lapi_version := v4lapi_version priv;
     caps := caps priv; formats := formats priv;
     construct_error := e |}.

Definition set_src (priv : CheeseCameraDevicePrivate) (s : option string)
  : CheeseCameraDevicePrivate :=
  {| device_node := device_node priv; uuid := uuid priv; src := s;
     name := name priv; v4lapi_version := v4lapi_version priv;
     caps := caps priv; formats := formats priv;
     construct_error := construct_error priv |}.

(** ** GLib and GStreamer helpers used by the device *)

(** [g_set_error] and [g_set_error_literal] on a location holding [old]: an
    error already stored is kept (GLib only warns). *)
Definition g_set_error (old : option GError) (d : string) (c : Z)
  (msg : string) : option GError :=
  match old with
  | None => Some {| domain := d; code := c; message := msg |}
  | Some e => Some e
  end.

(** A ["%s"] conversion of a possibly NULL string. *)
Definition printf_s (s : option string) : string :=
  match s with
  | Some v => v
  | None => "(null)"%string
  end.

Fixpoint gst_structure_get_value (fields : list (string * GValue))
  (field : string) : option GValue :=
  match fields with
  | [] => None
  | (k, v) :: rest =>
      if String.eqb k field then Some v else gst_structure_get_value rest field
  end.

Definition G_VALUE_HOLDS_INT (v : option GValue) : bool :=
  match v with
  | Some (G_INT _) => true
  | _ => false
  end.

Definition GST_VALUE_HOLDS_INT_RANGE (v : option GValue) : bool :=
  match v with
  | Some (GST_INT_RANGE _ _) => true
  | _ => false
  end.

(** [gst_structure_get_int (structure, field, &out)]: [out] keeps its old
    value when the field is missing or is not an int. *)
Definition gst_structure_get_int (s : GstStructure) (field : string)
  (out : Z) : Z :=
  match gst_structure_get_value (structure_fields s) field with
  | Some (G_INT n) => n
  | _ => out
  end.

(** [gst_value_get_int_range_min] and [_max] return 0 (after a critical
    warning) on anything that is not an int range. *)
Definition gst_value_get_int_range_min (v : option GValue) : Z :=
  match v with
  | Some (GST_INT_RANGE lo _) => lo
  | _ => 0
  end.

Definition gst_value_get_int_range_max (v : option GValue) : Z :=
  match v with
  | Some (GST_INT_RANGE _ hi) => hi
  | _ => 0
  end.

Definition gst_caps_new_simple (media : string) (field : string)
  (v : GValue) : GstStructure :=
  {| structure_name := media; structure_fields := [ (field, v) ] |}.

Definition gst_caps_is_empty (c : GstCaps) : bool :=
  match c with
  | [] => true
  | _ :: _ => false
  end.

(** ** The format list *)

(** The scan of [cheese_camera_device_add_format]: is there an item with the
    width and the height of [format]?  (Items are never NULL: each comes
    from [g_new0].) *)
Fixpoint format_listed (l : list CheeseVideoFormat)
  (format : CheeseVideoFormat) : bool :=
  match l with
  | [] => false
  | item :: next =>
      if (width item =? width format) && (height item =? height format)
      then true
      else format_listed next format
  end.

Definition cheese_camera_device_add_format (priv : CheeseCameraDevicePrivate)
  (format : CheeseVideoFormat) : CheeseCameraDevicePrivate :=
  if format_listed (formats priv) format then priv
  else set_formats priv (formats priv ++ [ format ]).

Definition free_format_list (priv : CheeseCameraDevicePrivate)
  : CheeseCameraDevicePrivate :=
  set_formats priv [].

(** ** The two sweeps over a ranged description *)

(** The first [while] loop: [fuel] bounds the number of iterations, and
    [cur_width *= 2] is a [gint] multiplication. *)
Fixpoint doubling_sweep (fuel : nat) (priv : CheeseCameraDevicePrivate)
  (cur_width cur_height max_width max_height : Z)
  : outcome CheeseCameraDevicePrivate :=
  if (cur_width <=? max_width) && (cur_height <=? max_height) then
    match fuel with
    | O => Spins priv
    | S fuel' =>
        doubling_sweep fuel'
          (cheese_camera_device_add_format priv
             {| width := cur_width; height := cur_height |})
          (Gint.mul cur_width 2) (Gint.mul cur_height 2)
          max_width max_height
    end
  else Returns priv.

(** The second [while] loop. *)
Fixpoint halving_sweep (fuel : nat) (priv : CheeseCameraDevicePrivate)
  (cur_width cur_height min_width min_height : Z)
  : outcome CheeseCameraDevicePrivate :=
  if (cur_width >? min_width) && (cur_height >? min_height) then
    match fuel with
    | O => Spins priv
    | S fuel' =>
        halving_sweep fuel'
          (cheese_camera_device_add_format priv
             {| width := cur_width; height := cur_height |})
          (Gint.div cur_width 2) (Gint.div cur_height 2)
          min_width min_height
    end
  else Returns priv.

(** One iteration of the [for] loop over the structures of [priv->caps]. *)
Definition format_table_entry (fuel : nat) (priv : CheeseCameraDevicePrivate)
  (structure : GstStructure) : outcome CheeseCameraDevicePrivate :=
  let w := gst_structure_get_value (structure_fields structure) "width" in
  let h := gst_structure_get_value (structure_fields structure) "height" in
  if G_VALUE_HOLDS_INT w then
    let format :=
      {| width := gst_structure_get_int structure "width" 0;
         height := gst_structure_get_int structure "height" 0 |} in
    Returns (cheese_camera_device_add_format priv format)
  else if GST_VALUE_HOLDS_INT_RANGE w then
    let min_width := gst_value_get_int_range_min w in
    let max_width := gst_value_get_int_range_max w in
    let min_height := gst_value_get_int_range_min h in
    let max_height := gst_value_get_int_range_max h in
    priv1 <- doubling_sweep fuel priv min_width min_height
               max_width max_height ;;
    halving_sweep fuel priv1 max_width max_height min_width min_height
  else
    match w with
    | Some _ => Returns priv         (* g_critical, entry skipped *)
    | None => Crashes priv           (* G_VALUE_TYPE_NAME (NULL) *)
    end.

Fixpoint format_table_loop (fuel : nat) (priv : CheeseCameraDevicePrivate)
  (structures : list GstStructure) : outcome CheeseCameraDevicePrivate :=
  match structures with
  | [] => Returns priv
  | structure :: rest =>
      priv1 <- format_table_entry fuel priv structure ;;
      format_table_loop fuel priv1 rest
  end.

Definition cheese_camera_device_update_format_table (fuel : nat)
  (priv : CheeseCameraDevicePrivate) : outcome CheeseCameraDevicePrivate :=
  format_table_loop fuel (free_format_list priv) (caps priv).

(** ** [g_list_sort] (GLib)

    The merge sort of glist.c: the list is cut after its first
    [length / 2] cells, both parts are sorted and then merged, the merge
    taking from the first part whenever the comparison is [<= 0]. *)

Section GListSort.

Context {A : Type} (compare_func : A -> A -> Z).

Fixpoint g_list_sort_merge (l1 : list A) : list A -> list A :=
  fix merge_into (l2 : list A) : list A :=
    match l1, l2 with
    | [], _ => l2
    | _, [] => l1
    | a :: l1', b :: l2' =>
        if compare_func a b <=? 0
        then a :: g_list_sort_merge l1' l2
        else b :: merge_into l2'
    end.

(** [fuel] bounds the recursion depth; the length of the list is always
    enough ([g_list_sort] below). *)
Fixpoint g_list_sort_real (fuel : nat) (l : list A) : list A :=
  match fuel with
  | O => l
  | S fuel' =>
      match l with
      | [] => []
      | [ a ] => [ a ]
      | _ :: _ :: _ =>
          let half := Nat.div2 (List.length l) in
          g_list_sort_merge
            (g_list_sort_real fuel' (firstn half l))
            (g_list_sort_real fuel' (skipn half l))
      end
  end.

Definition g_list_sort (l : list A) : list A :=
  g_list_sort_real (List.length l) l.

End GListSort.

Definition g_list_copy {A : Type} (l : list A) : list A := l.

(** ** Comparison and the sorted query *)

Definition compare_formats (c d : CheeseVideoFormat) : Z :=
  (* descending sort for rectangle area *)
  Gint.sub (Gint.mul (width d) (height d)) (Gint.mul (width c) (height c)).

Definition cheese_camera_device_get_format_list
  (priv : CheeseCameraDevicePrivate) : list CheeseVideoFormat :=
  g_list_sort compare_formats (g_list_copy (formats priv)).

(** [cheese_camera_device_get_best_format] reads the [data] of the first
    cell of the sorted list; there is none when the list is empty. *)
Definition cheese_camera_device_get_best_format
  (priv : CheeseCameraDevicePrivate) : option CheeseVideoFormat :=
  match cheese_camera_device_get_format_list priv with
  | [] => None
  | format :: _ => Some format
  end.

(** ** Object life cycle *)

Definition PROP_NAME : Z := 1.
Definition PROP_DEVICE_NODE : Z := 2.
Definition PROP_UUID : Z := 3.
Definition PROP_V4LAPI_VERSION : Z := 4.

(** [class_init] registers the API version as a [guint] property with
    [g_param_spec_uint (..., 1, 2, 2, ...)]: minimum 1, maximum 2.  GObject
    validates a value against this range before it calls [set_property]. *)
Definition V4LAPI_VERSION_MINIMUM : Z := 1.
Definition V4LAPI_VERSION_MAXIMUM : Z := 2.

Definition v4lapi_version_valid (value : Z) : bool :=
  (V4LAPI_VERSION_MINIMUM <=? value) && (value <=? V4LAPI_VERSION_MAXIMUM).

Inductive PropertyValue : Type :=
| StringValue (s : option string)
| UintValue (n : Z).

Definition g_value_dup_string (v : PropertyValue) : option string :=
  match v with
  | StringValue s => s
  | UintValue _ => None
  end.

Definition g_value_get_uint (v : PropertyValue) : Z :=
  match v with
  | UintValue n => n
  | StringValue _ => 0
  end.

Definition cheese_camera_device_init : CheeseCameraDevicePrivate :=
  {| device_node := None; uuid := None; src := None;
     name := Some "Unknown device"%string;
     v4lapi_version := 0;
     caps := [];
     formats := [];
     construct_error := None |}.

Definition cheese_camera_device_set_property
  (priv : CheeseCameraDevicePrivate) (prop_id : Z) (value : PropertyValue)
  : CheeseCameraDevicePrivate :=
  if prop_id =? PROP_NAME then
    {| device_node := device_node priv; uuid := uuid priv; src := src priv;
       name := g_value_dup_string value;
       v4lapi_version := v4lapi_version priv; caps := caps priv;
       formats := formats priv; construct_error := construct_error priv |}
  else if prop_id =? PROP_UUID then
    {| device_node := device_node priv; uuid := g_value_dup_string value;
       src := src priv; name := name priv;
       v4lapi_version := v4lapi_version priv; caps := caps priv;
       formats := formats priv; construct_error := construct_error priv |}
  else if prop_id =? PROP_DEVICE_NODE then
    {| device_node := g_value_dup_string value; uuid := uuid priv;
       src := src priv; name := name priv;
       v4lapi_version := v4lapi_version priv; caps := caps priv;
       formats := formats priv; construct_error := construct_error priv |}
  else if prop_id =? PROP_V4LAPI_VERSION then
    {| device_node := device_node priv; uuid := uuid priv; src := src priv;
       name := name priv; v4lapi_version := g_value_get_uint value;
       caps := caps priv; formats := formats priv;
       construct_error := construct_error priv |}
  else priv.

(** [GCancellable *]: [None] is the NULL pointer. *)
Inductive GCancellable : Type := a_cancellable.

(** [cheese_camera_device_initable_init].  [error] tells whether the caller
    passed a location for the error (holding NULL, as GLib requires).  The
    result is the device as the call leaves it, the returned [gboolean] and
    what the location then holds. *)
Definition cheese_camera_device_initable_init
  (priv : CheeseCameraDevicePrivate) (cancellable : option GCancellable)
  (error : bool) : CheeseCameraDevicePrivate * bool * option GError :=
  match cancellable with
  | Some _ =>
      (priv, false,
       if error
       then g_set_error None CHEESE_CAMERA_DEVICE_ERROR
              CHEESE_CAMERA_DEVICE_ERROR_NOT_SUPPORTED
              "Cancellable initialization not supported"
       else None)
  | None =>
      match construct_error priv with
      | Some e => (priv, false, if error then Some e (* g_error_copy *) else None)
      | None => (priv, true, None)
      end
  end.

(** ** The capability probe *)

Inductive GstStateChangeReturn : Type :=
| GST_STATE_CHANGE_FAILURE
| GST_STATE_CHANGE_SUCCESS
| GST_STATE_CHANGE_ASYNC
| GST_STATE_CHANGE_NO_PREROLL.

Record GstMessage : Type :=
  { message_src : string; message_error : GError;
    message_debug : option string }.

(** What the probe observes of a launched pipeline: the result of
    [gst_element_get_state] after at most 10 seconds, the error message
    popped from the bus if there is one, and the caps of the source pad. *)
Record GstPipeline : Type :=
  { pipeline_state : GstStateChangeReturn;
    pipeline_bus_error : option GstMessage;
    pipeline_source_caps : GstCaps }.

Section Probe.

(** GStreamer itself is outside this repository. *)
Variable gst_parse_launch : string -> option GstPipeline * option GError.
Variable gst_caps_intersect : GstCaps -> GstCaps -> GstCaps.

Definition framerate_filter (media : string) : GstStructure :=
  gst_caps_new_simple media "framerate"
    (GST_FRACTION_RANGE 0 1 CHEESE_MAXIMUM_RATE 1).

(** [formats] is never empty: the only caller passes
    [supported_formats]. *)
Definition cheese_camera_device_filter_caps (caps : GstCaps)
  (formats : list string) : GstCaps :=
  let filter :=
    match formats with
    | [] => []
    | first :: others =>
        [ framerate_filter first ] ++ map framerate_filter others
    end in
  gst_caps_intersect caps filter.

Definition cheese_camera_device_get_caps (fuel : nat)
  (priv : CheeseCameraDevicePrivate) : outcome CheeseCameraDevicePrivate :=
  let pipeline_desc :=
    (printf_s (src priv) ++ " name=source device="
       ++ printf_s (device_node priv) ++ " ! fakesink")%string in
  match gst_parse_launch pipeline_desc with
  | (Some pipeline, None) =>
      let ret := pipeline_state pipeline in
      let msg := pipeline_bus_error pipeline in
      match msg, ret with
      | None, GST_STATE_CHANGE_SUCCESS =>
          let priv1 :=
            set_caps priv
              (cheese_camera_device_filter_caps
                 (pipeline_source_caps pipeline) supported_formats) in
          if negb (gst_caps_is_empty (caps priv1))
          then cheese_camera_device_update_format_table fuel priv1
          else
            Returns
              (set_construct_error priv1
                 (g_set_error (construct_error priv1)
                    CHEESE_CAMERA_DEVICE_ERROR
                    CHEESE_CAMERA_DEVICE_ERROR_UNSUPPORTED_CAPS
                    "Device capabilities not supported"))
      | Some _, _ =>
          Returns
            (set_construct_error priv
               (g_set_error (construct_error priv)
                  CHEESE_CAMERA_DEVICE_ERROR
                  CHEESE_CAMERA_DEVICE_ERROR_FAILED_INITIALIZATION
                  ("Failed to initialize device "
                     ++ printf_s (device_node priv)
                     ++ " for capability probing")%string))
      | None, _ => Returns priv
      end
  | _ => Returns priv
  end.

Definition cheese_camera_device_constructed (fuel : nat)
  (priv : CheeseCameraDevicePrivate) : outcome CheeseCameraDevicePrivate :=
  let priv1 :=
    set_src priv
      (Some (if v4lapi_version priv =? 2
             then "v4l2src"%string else "v4lsrc"%string)) in
  cheese_camera_device_get_caps fuel priv1.

(** [g_object_new] part of [g_initable_new]: instance init, the four
    construct properties, then [constructed].  An API version outside the
    registered range is refused by GObject with a warning: [set_property]
    is not called for it and the field keeps the 0 of the zeroed instance. *)
Definition construct_device (fuel : nat) (uuid0 device_node0 name0 : option string)
  (v4l_api_version : Z) : outcome CheeseCameraDevicePrivate :=
  let p0 := cheese_camera_device_init in
  let p1 := cheese_camera_device_set_property p0 PROP_UUID (StringValue uuid0) in
  let p2 := cheese_camera_device_set_property p1 PROP_DEVICE_NODE
              (StringValue device_node0) in
  let p3 := cheese_camera_device_set_property p2 PROP_NAME (StringValue name0) in
  let p4 := if v4lapi_version_valid v4l_api_version
            then cheese_camera_device_set_property p3 PROP_V4LAPI_VERSION
                   (UintValue v4l_api_version)
            else p3 in
  cheese_camera_device_constructed fuel p4.

(** [cheese_camera_device_new]: [g_initable_new] with a NULL cancellable;
    the object is dropped (NULL returned) when [init] fails. *)
Definition cheese_camera_device_new (fuel : nat)
  (uuid0 device_node0 name0 : option string) (v4l_api_version : Z)
  (error : bool)
  : outcome (option CheeseCameraDevicePrivate * option GError) :=
  bind (construct_device fuel uuid0 device_node0 name0 v4l_api_version)
    (fun priv =>
       match cheese_camera_device_initable_init priv None error with
       | (priv1, true, err) => Returns (Some priv1, err)
       | (_, false, err) => Returns (None, err)
       end)
    (fun priv => (Some priv, None)).

End Probe.

(** ** Properties of the object, accessors and the caps of one format *)

(** [cheese_camera_device_get_property]: [value] is what the [GValue]
    handed in holds; an unknown id only warns and leaves it as it is. *)
Definition cheese_camera_device_get_property
  (priv : CheeseCameraDevicePrivate) (prop_id : Z) (value : PropertyValue)
  : PropertyValue :=
  if prop_id =? PROP_NAME then StringValue (name priv)
  else if prop_id =? PROP_DEVICE_NODE then StringValue (device_node priv)
  else if prop_id =? PROP_UUID then StringValue (uuid priv)
  else if prop_id =? PROP_V4LAPI_VERSION then UintValue (v4lapi_version priv)
  else value.

Definition cheese_camera_device_get_name (priv : CheeseCameraDevicePrivate)
  : option string := name priv.

Definition cheese_camera_device_get_uuid (priv : CheeseCameraDevicePrivate)
  : option string := uuid priv.

Definition cheese_camera_device_get_src (priv : CheeseCameraDevicePrivate)
  : option string := src priv.

Definition cheese_camera_device_get_device_node
  (priv : CheeseCameraDevicePrivate) : option string := device_node priv.

(** [gst_caps_new_simple (media, "width", G_TYPE_INT, w, "height",
    G_TYPE_INT, h, NULL)]. *)
Definition gst_caps_new_simple_size (media : string) (w h : Z)
  : GstStructure :=
  {| structure_name := media;
     structure_fields :=
       [ ("width"%string, G_INT w); ("height"%string, G_INT h) ] |}.

(** [cheese_camera_device_get_caps_for_format], over the intersection of
    GStreamer. *)
Definition cheese_camera_device_get_caps_for_format
  (gst_caps_intersect : GstCaps -> GstCaps -> GstCaps)
  (priv : CheeseCameraDevicePrivate) (format : CheeseVideoFormat) : GstCaps :=
  let desired_caps :=
    match supported_formats with
    | [] => []
    | first :: others =>
        [ gst_caps_new_simple_size first (width format) (height format) ]
          ++ map (fun media =>
                    gst_caps_new_simple_size media (width format)
                      (height format)) others
    end in
  gst_caps_intersect desired_caps (caps priv).

(** ** A reference instance of the GStreamer operations

    Used to run the probe on concrete caps: structures with the same media
    type are intersected field by field, a field present on one side only
    being kept, over ints, int ranges, fractions and fraction ranges (all
    denominators positive).  The general theorems below do not depend on
    it: they hold for every [gst_parse_launch] and [gst_caps_intersect]. *)

Module GstModel.

Definition fraction_leb (n1 d1 n2 d2 : Z) : bool := n1 * d2 <=? n2 * d1.

Definition value_intersect (a b : GValue) : option GValue :=
  match a, b with
  | G_INT n, G_INT m => if n =? m then Some (G_INT n) else None
  | G_INT n, GST_INT_RANGE lo hi
  | GST_INT_RANGE lo hi, G_INT n =>
      if (lo <=? n) && (n <=? hi) then Some (G_INT n) else None
  | GST_INT_RANGE lo1 hi1, GST_INT_RANGE lo2 hi2 =>
      let lo := Z.max lo1 lo2 in
      let hi := Z.min hi1 hi2 in
      if lo <? hi then Some (GST_INT_RANGE lo hi)
      else if lo =? hi then Some (G_INT lo) else None
  | GST_FRACTION n d, GST_FRACTION m e =>
      if n * e =? m * d then Some (GST_FRACTION n d) else None
  | GST_FRACTION n d, GST_FRACTION_RANGE n1 d1 n2 d2
  | GST_FRACTION_RANGE n1 d1 n2 d2, GST_FRACTION n d =>
      if fraction_leb n1 d1 n d && fraction_leb n d n2 d2
      then Some (GST_FRACTION n d) else None
  | GST_FRACTION_RANGE a1 b1 a2 b2, GST_FRACTION_RANGE c1 e1 c2 e2 =>
      let '(lo_n, lo_d) :=
        if fraction_leb a1 b1 c1 e1 then (c1, e1) else (a1, b1) in
      let '(hi_n, hi_d) :=
        if fraction_leb a2 b2 c2 e2 then (a2, b2) else (c2, e2) in
      if fraction_leb lo_n lo_d hi_n hi_d
      then
        if fraction_leb hi_n hi_d lo_n lo_d
        then Some (GST_FRACTION lo_n lo_d)
        else Some (GST_FRACTION_RANGE lo_n lo_d hi_n hi_d)
      else None
  | _, _ => None
  end.

Fixpoint fields_intersect (f1 f2 : list (string * GValue))
  : option (list (string * GValue)) :=
  match f1 with
  | [] => Some []
  | (k, v) :: rest =>
      match fields_intersect rest f2 with
      | None => None
      | Some rest' =>
          match gst_structure_get_value f2 k with
          | None => Some ((k, v) :: rest')
          | Some v2 =>
              match value_intersect v v2 with
              | Some v' => Some ((k, v') :: rest')
              | None => None
              end
          end
      end
  end.

Definition only_in_second (f1 f2 : list (string * GValue))
  : list (string * GValue) :=
  filter
    (fun kv =>
       match gst_structure_get_value f1 (fst kv) with
       | None => true
       | Some _ => false
       end) f2.

Definition structure_intersect (s1 s2 : GstStructure) : list GstStructure :=
  if String.eqb (structure_name s1) (structure_name s2) then
    match fields_intersect (structure_fields s1) (structure_fields s2) with
    | Some common =>
        [ {| structure_name := structure_name s1;
             structure_fields :=
               common ++ only_in_second (structure_fields s1)
                           (structure_fields s2) |} ]
    | None => []
    end
  else [].

Definition caps_intersect (c1 c2 : GstCaps) : GstCaps :=
  flat_map (fun s1 => flat_map (structure_intersect s1) c2) c1.

(** A capture source whose pipeline parses and behaves as [pipeline]. *)
Definition launches (pipeline : GstPipeline)
  : string -> option GstPipeline * option GError :=
  fun _ => (Some pipeline, None).

(** A pipeline description that fails to parse. *)
Definition parse_fails (err : GError)
  : string -> option GstPipeline * option GError :=
  fun _ => (None, Some err).

Definition video (media : string) (w h : GValue) : GstStructure :=
  {| structure_name := media;
     structure_fields :=
       [ ("width"%string, w); ("height"%string, h);
         ("framerate"%string, GST_FRACTION 30 1) ] |}.

Definition ready (c : GstCaps) : GstPipeline :=
  {| pipeline_state := GST_STATE_CHANGE_SUCCESS;
     pipeline_bus_error := None;
     pipeline_source_caps := c |}.

End GstModel.

(** * Vocabulary of the properties *)

(** The comparison function decides the order [R] on the elements of
    [l]: a result [<= 0] means the first is before the second. *)
Definition decides {A : Type} (compare_func : A -> A -> Z)
  (R : A -> A -> Prop) (l : list A) : Prop :=
  forall a b, In a l -> In b l ->
              (compare_func a b <= 0 -> R a b)
              /\ (compare_func a b > 0 -> R b a).

Definition dims (f : CheeseVideoFormat) : Z * Z := (width f, height f).

(** No two entries with equal width and equal height. *)
Definition distinct_sizes (l : list CheeseVideoFormat) : Prop :=
  NoDup (map dims l).

(** The list that [cheese_camera_device_add_format] leaves behind. *)
Definition with_format (l : list CheeseVideoFormat) (f : CheeseVideoFormat)
  : list CheeseVideoFormat :=
  if format_listed l f then l else l ++ [ f ].

(** Offering a sequence of candidates, first to last. *)
Definition add_all (priv : CheeseCameraDevicePrivate)
  (candidates : list CheeseVideoFormat) : CheeseCameraDevicePrivate :=
  fold_left cheese_camera_device_add_format candidates priv.

(** The first [n] pairs of the doubling sweep from [(w, h)], and of the
    halving sweep from [(w, h)]. *)
Definition doubled (w h : Z) (n : nat) : list CheeseVideoFormat :=
  map (fun k => {| width := w * 2 ^ Z.of_nat k; height := h * 2 ^ Z.of_nat k |})
    (seq 0 n).

Definition halved (w h : Z) (n : nat) : list CheeseVideoFormat :=
  map (fun k => {| width := w ÷ 2 ^ Z.of_nat k; height := h ÷ 2 ^ Z.of_nat k |})
    (seq 0 n).

(** The loop conditions at the [k]-th pair. *)
Definition doubling_continues (min_w min_h max_w max_h : Z) (k : nat) : Prop :=
  min_w * 2 ^ Z.of_nat k <= max_w /\ min_h * 2 ^ Z.of_nat k <= max_h.

Definition halving_continues (max_w max_h min_w min_h : Z) (k : nat) : Prop :=
  max_w ÷ 2 ^ Z.of_nat k > min_w /\ max_h ÷ 2 ^ Z.of_nat k > min_h.

(** A sweep that offered exactly the first [n] candidates: it either left
    the loop at the [n]-th pair or used up its budget there. *)
Definition swept (m : outcome CheeseCameraDevicePrivate)
  (priv : CheeseCameraDevicePrivate) (candidates : nat -> list CheeseVideoFormat)
  (continues : nat -> Prop) (fuel n : nat) : Prop :=
  (forall k, (k < n)%nat -> continues k) /\
  ((m = Returns (add_all priv (candidates n)) /\ ~ continues n) \/
   (m = Spins (add_all priv (candidates n)) /\ n = fuel /\ continues n)).

(** The policy filter: the two raw families at 0/1 to 30/1 frames a
    second. *)
Definition policy_filter : GstCaps :=
  [ {| structure_name := "video/x-raw-rgb";
       structure_fields :=
         [ ("framerate"%string, GST_FRACTION_RANGE 0 1 30 1) ] |};
    {| structure_name := "video/x-raw-yuv";
       structure_fields :=
         [ ("framerate"%string, GST_FRACTION_RANGE 0 1 30 1) ] |} ].

(** The description [constructed] hands to [gst_parse_launch]. *)
Definition pipeline_description (version : Z) (node0 : option string)
  : string :=
  ((if (version =? 2)%Z then "v4l2src" else "v4lsrc") ++ " name=source device="
     ++ printf_s node0 ++ " ! fakesink")%string.

(** The API version a constructed device holds: the one given when it is
    1 or 2, the 0 of the zeroed instance otherwise. *)
Definition stored_version (version : Z) : Z :=
  if v4lapi_version_valid version then version else 0.

(** The device as [constructed] finds it, with the source element chosen. *)
Definition initial_device (uuid0 node0 name0 : option string) (version : Z)
  : CheeseCameraDevicePrivate :=
  {| device_node := node0; uuid := uuid0;
     src := Some (if version =? 2 then "v4l2src"%string else "v4lsrc"%string);
     name := name0; v4lapi_version := stored_version version;
     caps := []; formats := []; construct_error := None |}.

(** The device as it stands when the caps of a ready pipeline have been
    filtered and stored, before the format table is derived. *)
Definition filtered_device
  (gst_caps_intersect : GstCaps -> GstCaps -> GstCaps)
  (uuid0 node0 name0 : option string) (version : Z) (pipeline : GstPipeline)
  : CheeseCameraDevicePrivate :=
  {| device_node := node0; uuid := uuid0;
     src := Some (if version =? 2 then "v4l2src"%string else "v4lsrc"%string);
     name := name0; v4lapi_version := stored_version version;
     caps := gst_caps_intersect (pipeline_source_caps pipeline) policy_filter;
     formats := []; construct_error := None |}.

(** A format whose area is representable as a non-negative [gint]. *)
Definition area_fits (f : CheeseVideoFormat) : Prop :=
  0 <= area f <= Gint.G_MAXINT.

(** Descending area, pairwise over the whole list. *)
Definition by_descending_area (l : list CheeseVideoFormat) : Prop :=
  StronglySorted (fun f1 f2 => area f1 >= area f2) l.

Definition positive_size (f : CheeseVideoFormat) : Prop :=
  0 < width f /\ 0 < height f.

(** A description the derivation is written for: fixed positive width and
    height, or ranged width and height with positive minima that do not
    exceed the maxima, the maxima being small enough to be doubled. *)
Definition positive_description (s : GstStructure) : Prop :=
  match gst_structure_get_value (structure_fields s) "width",
        gst_structure_get_value (structure_fields s) "height" with
  | Some (G_INT w), Some (G_INT h) => 0 < w /\ 0 < h
  | Some (GST_INT_RANGE min_w max_w), Some (GST_INT_RANGE min_h max_h) =>
      0 < min_w <= max_w /\ 0 < min_h <= max_h
      /\ 2 * max_w <= Gint.G_MAXINT /\ 2 * max_h <= Gint.G_MAXINT
  | _, _ => False
  end.

(** What a probe can leave behind: a rebuilt format list and no new
    error; or one of the two errors and the old format list; or nothing
    at all. *)
Inductive probed (priv : CheeseCameraDevicePrivate)
  : CheeseCameraDevicePrivate -> Prop :=
| probed_formats (c : GstCaps) (candidates : list CheeseVideoFormat) :
    probed priv
      (set_formats (set_caps priv c) (fold_left with_format candidates []))
| probed_unsupported (c : GstCaps) :
    probed priv
      (set_construct_error (set_caps priv c)
         (g_set_error (construct_error priv) CHEESE_CAMERA_DEVICE_ERROR
            CHEESE_CAMERA_DEVICE_ERROR_UNSUPPORTED_CAPS
            "Device capabilities not supported"))
| probed_failed :
    probed priv
      (set_construct_error priv
         (g_set_error (construct_error priv) CHEESE_CAMERA_DEVICE_ERROR
            CHEESE_CAMERA_DEVICE_ERROR_FAILED_INITIALIZATION
            ("Failed to initialize device " ++ printf_s (device_node priv)
               ++ " for capability probing")%string))
| probed_nothing : probed priv priv.

(** A description with a fixed width, and the format read from it. *)
Definition fixed_description (s : GstStructure) : Prop :=
  G_VALUE_HOLDS_INT (gst_structure_get_value (structure_fields s) "width")
  = true.

Definition fixed_format (s : GstStructure) : CheeseVideoFormat :=
  {| width := gst_structure_get_int s "width" 0;
     height := gst_structure_get_int s "height" 0 |}.

(** A format that a description allows: the fixed size itself, or a size
    within the ranges. *)
Definition covers (s : GstStructure) (f : CheeseVideoFormat) : Prop :=
  match gst_structure_get_value (structure_fields s) "width",
        gst_structure_get_value (structure_fields s) "height" with
  | Some (G_INT w), Some (G_INT h) => width f = w /\ height f = h
  | Some (GST_INT_RANGE min_w max_w), Some (GST_INT_RANGE min_h max_h) =>
      min_w <= width f <= max_w /\ min_h <= height f <= max_h
  | _, _ => False
  end.

(** The sizes at the corners of a description: the fixed size; or the
    minimum of a range, with the maximum where it is larger in both
    dimensions. *)
Definition corner_sizes (s : GstStructure) : list CheeseVideoFormat :=
  match gst_structure_get_value (structure_fields s) "width",
        gst_structure_get_value (structure_fields s) "height" with
  | Some (G_INT w), Some (G_INT h) => [ {| width := w; height := h |} ]
  | Some (GST_INT_RANGE min_w max_w), Some (GST_INT_RANGE min_h max_h) =>
      {| width := min_w; height := min_h |}
        :: (if (max_w >? min_w) && (max_h >? min_h)
            then [ {| width := max_w; height := max_h |} ] else [])
  | _, _ => []
  end.

(** A ranged description whose sweep starts at (0,0) below non-negative
    maxima, as [cheese_camera_device_update_format_table] reads it (a
    height that is no range reads as 0 to 0). *)
Definition zero_minimum_range (s : GstStructure) : Prop :=
  let w := gst_structure_get_value (structure_fields s) "width" in
  let h := gst_structure_get_value (structure_fields s) "height" in
  GST_VALUE_HOLDS_INT_RANGE w = true
  /\ gst_value_get_int_range_min w = 0 /\ gst_value_get_int_range_min h = 0
  /\ 0 <= gst_value_get_int_range_max w
  /\ 0 <= gst_value_get_int_range_max h.

(** The comparison is the difference of two keys on the elements of [l]. *)
Definition difference_of {A : Type} (compare_func : A -> A -> Z)
  (key : A -> Z) (l : list A) : Prop :=
  forall a b, In a l -> In b l -> compare_func a b = key b - key a.

(** The formats of area [k], in the order of the list. *)
Definition of_area (k : Z) (l : list CheeseVideoFormat)
  : list CheeseVideoFormat :=
  filter (fun f => area f =? k) l.

(** A ranged description whose maxima are both [G_MAXINT], the minima
    being [gint] values. *)
Definition unbounded_range (s : GstStructure) : Prop :=
  let w := gst_structure_get_value (structure_fields s) "width" in
  let h := gst_structure_get_value (structure_fields s) "height" in
  GST_VALUE_HOLDS_INT_RANGE w = true
  /\ gst_value_get_int_range_max w = Gint.G_MAXINT
  /\ gst_value_get_int_range_max h = Gint.G_MAXINT
  /\ Gint.in_range (gst_value_get_int_range_min w)
  /\ Gint.in_range (gst_value_get_int_range_min h).

(** * Properties *)

(** ** Machine arithmetic *)

Lemma gint_wrap_small (z : Z) : Gint.in_range z -> Gint.wrap z = z.
Proof.
  unfold Gint.in_range, Gint.wrap, Gint.G_MININT, Gint.G_MAXINT. intros H.
  rewrite Z.mod_small by lia. lia.
Qed.

(** ** The format list as a set of sizes *)

Lemma format_listed_true (l : list CheeseVideoFormat) (f : CheeseVideoFormat) :
  format_listed l f = true <-> In (dims f) (map dims l).
Proof.
  induction l as [| item next IH]; simpl.
  - split; [discriminate | contradiction].
  - destruct ((width item =? width f) && (height item =? height f)) eqn:E.
    + apply andb_true_iff in E. destruct E as [Ew Eh].
      apply Z.eqb_eq in Ew. apply Z.eqb_eq in Eh.
      split; [intros _ | reflexivity].
      left. unfold dims. congruence.
    + rewrite IH. split; [now right |].
      intros [H | H]; [| exact H].
      unfold dims in H. inversion H as [[Hw Hh]].
      rewrite Hw, Hh, !Z.eqb_refl in E. discriminate.
Qed.

Lemma format_listed_false (l : list CheeseVideoFormat) (f : CheeseVideoFormat) :
  format_listed l f = false <-> ~ In (dims f) (map dims l).
Proof.
  rewrite <- format_listed_true. destruct (format_listed l f); split;
    congruence.
Qed.

Lemma set_formats_same (priv : CheeseCameraDevicePrivate) :
  set_formats priv (formats priv) = priv.
Proof. destruct priv. reflexivity. Qed.

Lemma add_format_unfold (priv : CheeseCameraDevicePrivate)
  (f : CheeseVideoFormat) :
  cheese_camera_device_add_format priv f
  = set_formats priv (with_format (formats priv) f).
Proof.
  unfold cheese_camera_device_add_format, with_format.
  destruct (format_listed (formats priv) f);
    [symmetry; apply set_formats_same | reflexivity].
Qed.

Lemma add_all_unfold (candidates : list CheeseVideoFormat) :
  forall priv,
    add_all priv candidates
    = set_formats priv (fold_left with_format candidates (formats priv)).
Proof.
  unfold add_all.
  induction candidates as [| f rest IH]; intros priv; simpl.
  - symmetry. apply set_formats_same.
  - rewrite IH, add_format_unfold. reflexivity.
Qed.

Lemma add_all_app (priv : CheeseCameraDevicePrivate)
  (l1 l2 : list CheeseVideoFormat) :
  add_all priv (l1 ++ l2) = add_all (add_all priv l1) l2.
Proof. unfold add_all. apply fold_left_app. Qed.

Lemma with_format_distinct (l : list CheeseVideoFormat) (f : CheeseVideoFormat) :
  distinct_sizes l -> distinct_sizes (with_format l f).
Proof.
  unfold distinct_sizes, with_format. intros H.
  destruct (format_listed l f) eqn:E; [exact H |].
  rewrite map_app. apply NoDup_app; [exact H | |].
  - simpl. constructor; [intros [] | constructor].
  - intros a Ha [Hf | []]. subst a.
    apply format_listed_false in E. contradiction.
Qed.

Lemma with_format_present (l : list CheeseVideoFormat) (f : CheeseVideoFormat) :
  In (dims f) (map dims l) -> with_format l f = l.
Proof.
  intros H. unfold with_format.
  apply format_listed_true in H. rewrite H. reflexivity.
Qed.

Lemma fold_with_format_distinct (candidates : list CheeseVideoFormat) :
  forall l, distinct_sizes l ->
            distinct_sizes (fold_left with_format candidates l).
Proof.
  induction candidates as [| f rest IH]; intros l H; simpl;
    [exact H | apply IH, with_format_distinct, H].
Qed.


(** ** The candidates of the two sweeps *)

Lemma pow2_succ (k : nat) : 2 ^ Z.of_nat (S k) = 2 * 2 ^ Z.of_nat k.
Proof. rewrite Nat2Z.inj_succ, Z.pow_succ_r by lia. reflexivity. Qed.

Lemma pow2_pos (k : nat) : 0 < 2 ^ Z.of_nat k.
Proof. apply Z.pow_pos_nonneg; lia. Qed.

Lemma doubled_S (w h : Z) (n : nat) :
  doubled w h (S n) = {| width := w; height := h |} :: doubled (w * 2) (h * 2) n.
Proof.
  unfold doubled. rewrite <- cons_seq, <- seq_shift, map_cons, map_map.
  f_equal.
  - simpl. f_equal; lia.
  - apply map_ext. intros k. rewrite pow2_succ. f_equal; lia.
Qed.

Lemma halved_S (w h : Z) (n : nat) :
  halved w h (S n) = {| width := w; height := h |} :: halved (w ÷ 2) (h ÷ 2) n.
Proof.
  unfold halved. rewrite <- cons_seq, <- seq_shift, map_cons, map_map.
  f_equal.
  - simpl. now rewrite !Z.quot_1_r.
  - apply map_ext. intros k. rewrite pow2_succ.
    pose proof (pow2_pos k).
    rewrite !Z.quot_quot by lia. reflexivity.
Qed.

Lemma doubling_continues_S (w h max_w max_h : Z) (k : nat) :
  doubling_continues w h max_w max_h (S k)
  <-> doubling_continues (w * 2) (h * 2) max_w max_h k.
Proof.
  unfold doubling_continues. rewrite pow2_succ.
  replace (w * (2 * 2 ^ Z.of_nat k)) with (w * 2 * 2 ^ Z.of_nat k) by lia.
  replace (h * (2 * 2 ^ Z.of_nat k)) with (h * 2 * 2 ^ Z.of_nat k) by lia.
  reflexivity.
Qed.

Lemma halving_continues_S (w h min_w min_h : Z) (k : nat) :
  halving_continues w h min_w min_h (S k)
  <-> halving_continues (w ÷ 2) (h ÷ 2) min_w min_h k.
Proof.
  unfold halving_continues. rewrite pow2_succ. pose proof (pow2_pos k).
  rewrite !Z.quot_quot by lia. reflexivity.
Qed.

Lemma doubling_continues_0 (w h max_w max_h : Z) :
  doubling_continues w h max_w max_h 0
  <-> (w <=? max_w) && (h <=? max_h) = true.
Proof.
  unfold doubling_continues. simpl. rewrite !Z.mul_1_r.
  rewrite andb_true_iff, !Z.leb_le. reflexivity.
Qed.

Lemma halving_continues_0 (w h min_w min_h : Z) :
  halving_continues w h min_w min_h 0
  <-> (w >? min_w) && (h >? min_h) = true.
Proof.
  unfold halving_continues. simpl. rewrite !Z.quot_1_r.
  rewrite andb_true_iff, !Z.gtb_lt. lia.
Qed.

(** Extending a trace by the iteration that precedes it. *)
Lemma swept_step (m : outcome CheeseCameraDevicePrivate)
  (priv : CheeseCameraDevicePrivate) (f : CheeseVideoFormat)
  (candidates candidates' : nat -> list CheeseVideoFormat)
  (continues continues' : nat -> Prop) (fuel n : nat) :
  (forall k, candidates (S k) = f :: candidates' k) ->
  (forall k, continues (S k) <-> continues' k) ->
  continues 0%nat ->
  swept m (cheese_camera_device_add_format priv f) candidates' continues' fuel n ->
  swept m priv candidates continues (S fuel) (S n).
Proof.
  intros Hc Hg H0 [Hall Hend]. split.
  - intros [| k] Hk; [exact H0 | apply Hg, Hall; lia].
  - rewrite Hc. unfold add_all in *. simpl.
    destruct Hend as [[Hm Hn] | [Hm [Hf Hn]]].
    + left. split; [exact Hm | now rewrite Hg].
    + right. split; [exact Hm | split; [now f_equal | now apply Hg]].
Qed.

(** The halving sweep, for every input and every budget. *)
Lemma halving_sweep_trace (fuel : nat) :
  forall priv cur_w cur_h min_w min_h,
  exists n, (n <= fuel)%nat /\
    swept (halving_sweep fuel priv cur_w cur_h min_w min_h) priv
      (halved cur_w cur_h) (halving_continues cur_w cur_h min_w min_h) fuel n.
Proof.
  induction fuel as [| fuel IH]; intros priv cur_w cur_h min_w min_h;
    pose proof (halving_continues_0 cur_w cur_h min_w min_h) as G0; simpl;
    destruct ((cur_w >? min_w) && (cur_h >? min_h)) eqn:E.
  - exists 0%nat. split; [lia |]. split; [intros k Hk; lia |].
    right. repeat split; apply G0; reflexivity.
  - exists 0%nat. split; [lia |]. split; [intros k Hk; lia |].
    left. split; [reflexivity |]. rewrite G0. discriminate.
  - destruct (IH (cheese_camera_device_add_format priv
                    {| width := cur_w; height := cur_h |})
                (Gint.div cur_w 2) (Gint.div cur_h 2) min_w min_h)
      as [n [Hn Hs]].
    exists (S n). split; [lia |].
    eapply swept_step; [apply halved_S | apply halving_continues_S | | exact Hs].
    apply G0. reflexivity.
  - exists 0%nat. split; [lia |]. split; [intros k Hk; lia |].
    left. split; [reflexivity |]. rewrite G0. discriminate.
Qed.

(** The doubling sweep, as long as doubling stays within [gint]. *)
Lemma doubling_sweep_trace (fuel : nat) :
  forall priv cur_w cur_h max_w max_h,
    0 < cur_w -> 0 < cur_h ->
    2 * max_w <= Gint.G_MAXINT -> 2 * max_h <= Gint.G_MAXINT ->
  exists n, (n <= fuel)%nat /\
    swept (doubling_sweep fuel priv cur_w cur_h max_w max_h) priv
      (doubled cur_w cur_h) (doubling_continues cur_w cur_h max_w max_h) fuel n.
Proof.
  induction fuel as [| fuel IH]; intros priv cur_w cur_h max_w max_h Hw Hh Mw Mh;
    pose proof (doubling_continues_0 cur_w cur_h max_w max_h) as G0; simpl;
    destruct ((cur_w <=? max_w) && (cur_h <=? max_h)) eqn:E.
  - exists 0%nat. split; [lia |]. split; [intros k Hk; lia |].
    right. repeat split; apply G0; reflexivity.
  - exists 0%nat. split; [lia |]. split; [intros k Hk; lia |].
    left. split; [reflexivity |]. rewrite G0. discriminate.
  - apply andb_true_iff in E. destruct E as [Ew Eh].
    apply Z.leb_le in Ew. apply Z.leb_le in Eh.
    unfold Gint.G_MAXINT in *.
    assert (Dw : Gint.mul cur_w 2 = cur_w * 2)
      by (apply gint_wrap_small; unfold Gint.in_range, Gint.G_MININT,
            Gint.G_MAXINT; lia).
    assert (Dh : Gint.mul cur_h 2 = cur_h * 2)
      by (apply gint_wrap_small; unfold Gint.in_range, Gint.G_MININT,
            Gint.G_MAXINT; lia).
    rewrite Dw, Dh.
    destruct (IH (cheese_camera_device_add_format priv
                    {| width := cur_w; height := cur_h |})
                (cur_w * 2) (cur_h * 2) max_w max_h)
      as [n [Hn Hs]]; try lia.
    exists (S n). split; [lia |].
    eapply swept_step; [apply doubled_S | apply doubling_continues_S | | exact Hs].
    apply G0. reflexivity.
  - exists 0%nat. split; [lia |]. split; [intros k Hk; lia |].
    left. split; [reflexivity |]. rewrite G0. discriminate.
Qed.





Lemma quot_ge_1 (a b : Z) : 0 < b -> a ÷ b >= 1 -> b <= a.
Proof.
  intros Hb Hq. destruct (Z_lt_le_dec a b) as [Hlt | Hle]; [| exact Hle].
  exfalso. destruct (Z_lt_le_dec a 0) as [Hneg | Hpos].
  - pose proof (Z.quot_le_upper_bound a b 0 Hb ltac:(lia)). lia.
  - rewrite Z.quot_small in Hq by lia. lia.
Qed.

Lemma doubling_sweep_from_zero (fuel : nat) :
  forall priv max_w max_h, 0 <= max_w -> 0 <= max_h ->
    exists stuck, doubling_sweep fuel priv 0 0 max_w max_h = Spins stuck.
Proof.
  induction fuel as [| fuel IH]; intros priv max_w max_h Hw Hh; simpl;
    (replace (0 <=? max_w) with true by (symmetry; apply Z.leb_le; exact Hw));
    (replace (0 <=? max_h) with true by (symmetry; apply Z.leb_le; exact Hh));
    simpl.
  - now exists priv.
  - change (Gint.mul 0 2) with 0. apply IH; assumption.
Qed.

(** With positive start values and maxima that can be doubled, 30
    iterations are enough for the doubling sweep to return. *)
Lemma doubling_sweep_returns (fuel : nat) (priv : CheeseCameraDevicePrivate)
  (w h max_w max_h : Z) :
  0 < w -> 0 < h ->
  2 * max_w <= Gint.G_MAXINT -> 2 * max_h <= Gint.G_MAXINT ->
  (30 <= fuel)%nat ->
  exists n,
    doubling_sweep fuel priv w h max_w max_h
    = Returns (add_all priv (doubled w h n))
    /\ (forall k, (k < n)%nat -> doubling_continues w h max_w max_h k)
    /\ ~ doubling_continues w h max_w max_h n.
Proof.
  intros Pw Ph Bw Bh Hfuel.
  destruct (doubling_sweep_trace fuel priv w h max_w max_h Pw Ph Bw Bh)
    as [n [Hn [Hall [[Hm Hstop] | [Hm [Hf [Hc _]]]]]]].
  - exists n. split; [exact Hm | split; [exact Hall | exact Hstop]].
  - exfalso. subst n. unfold Gint.G_MAXINT in Bw.
    assert (2 ^ 30 <= 2 ^ Z.of_nat fuel)
      by (apply Z.pow_le_mono_r; lia).
    change (2 ^ 30) with 1073741824 in H. nia.
Qed.

(** With a non-negative minimum, 31 iterations are enough for the halving
    sweep to return. *)
Lemma halving_sweep_returns (fuel : nat) (priv : CheeseCameraDevicePrivate)
  (max_w max_h min_w min_h : Z) :
  0 <= min_w \/ 0 <= min_h ->
  Gint.in_range max_w -> Gint.in_range max_h ->
  (31 <= fuel)%nat ->
  exists n,
    halving_sweep fuel priv max_w max_h min_w min_h
    = Returns (add_all priv (halved max_w max_h n))
    /\ (forall k, (k < n)%nat -> halving_continues max_w max_h min_w min_h k)
    /\ ~ halving_continues max_w max_h min_w min_h n.
Proof.
  intros Hmin [_ Rw] [_ Rh] Hfuel.
  destruct (halving_sweep_trace fuel priv max_w max_h min_w min_h)
    as [n [Hn [Hall [[Hm Hstop] | [_ [-> [Cw Ch]]]]]]].
  - exists n. split; [exact Hm | split; [exact Hall | exact Hstop]].
  - exfalso. unfold Gint.G_MAXINT in *.
    pose proof (pow2_pos fuel) as Hp.
    assert (2 ^ 31 <= 2 ^ Z.of_nat fuel) by (apply Z.pow_le_mono_r; lia).
    change (2 ^ 31) with 2147483648 in H.
    destruct Hmin as [Hmin | Hmin].
    + pose proof (quot_ge_1 max_w _ Hp ltac:(lia)). lia.
    + pose proof (quot_ge_1 max_h _ Hp ltac:(lia)). lia.
Qed.




(** ** [g_list_sort] rearranges, and sorts under a consistent comparison *)

Section GListSortFacts.

Context {A : Type} (compare_func : A -> A -> Z).

Lemma g_list_sort_merge_nil_l (l2 : list A) :
  g_list_sort_merge compare_func [] l2 = l2.
Proof. destruct l2; reflexivity. Qed.

Lemma g_list_sort_merge_nil_r (l1 : list A) :
  g_list_sort_merge compare_func l1 [] = l1.
Proof. destruct l1; reflexivity. Qed.

Lemma g_list_sort_merge_cons (a b : A) (l1 l2 : list A) :
  g_list_sort_merge compare_func (a :: l1) (b :: l2)
  = if compare_func a b <=? 0
    then a :: g_list_sort_merge compare_func l1 (b :: l2)
    else b :: g_list_sort_merge compare_func (a :: l1) l2.
Proof. reflexivity. Qed.

Lemma g_list_sort_merge_perm (l1 : list A) :
  forall l2, Permutation (g_list_sort_merge compare_func l1 l2) (l1 ++ l2).
Proof.
  induction l1 as [| a l1 IH1]; intros l2.
  - rewrite g_list_sort_merge_nil_l. reflexivity.
  - induction l2 as [| b l2 IH2].
    + rewrite g_list_sort_merge_nil_r, app_nil_r. reflexivity.
    + rewrite g_list_sort_merge_cons.
      destruct (compare_func a b <=? 0).
      * simpl. constructor. apply IH1.
      * rewrite IH2. apply (Permutation_middle (a :: l1) l2 b).
Qed.

Lemma halves_shorter (a b : A) (l : list A) :
  let whole := a :: b :: l in
  let half := Nat.div2 (List.length whole) in
  (List.length (firstn half whole) < List.length whole)%nat
  /\ (List.length (skipn half whole) < List.length whole)%nat.
Proof.
  cbv zeta. pose proof (Nat.le_div2_diag_l (List.length l)) as H.
  rewrite length_firstn, length_skipn.
  change (List.length (a :: b :: l)) with (S (S (List.length l))).
  change (Nat.div2 (S (S (List.length l))))
    with (S (Nat.div2 (List.length l))).
  generalize dependent (Nat.div2 (List.length l)). intros d Hd.
  split; [apply Nat.min_lt_iff; left |]; lia.
Qed.

Lemma g_list_sort_real_perm (fuel : nat) :
  forall l, Permutation (g_list_sort_real compare_func fuel l) l.
Proof.
  induction fuel as [| fuel IH]; intros l; simpl; [reflexivity |].
  destruct l as [| a [| b l]]; try reflexivity.
  rewrite g_list_sort_merge_perm, !IH.
  set (half := Nat.div2 (List.length (a :: b :: l))).
  rewrite (firstn_skipn half (a :: b :: l)). reflexivity.
Qed.

Lemma g_list_sort_perm (l : list A) :
  Permutation (g_list_sort compare_func l) l.
Proof. apply g_list_sort_real_perm. Qed.

(** [R] is the order the comparison is meant to decide. *)
Context (R : A -> A -> Prop).
Hypothesis R_trans : forall a b c, R a b -> R b c -> R a c.

Lemma decides_incl (l l' : list A) :
  incl l' l -> decides compare_func R l -> decides compare_func R l'.
Proof. intros Hi Hd a b Ha Hb. apply Hd; apply Hi; assumption. Qed.

Lemma g_list_sort_merge_sorted (l1 : list A) :
  forall l2,
    decides compare_func R (l1 ++ l2) ->
    StronglySorted R l1 -> StronglySorted R l2 ->
    StronglySorted R (g_list_sort_merge compare_func l1 l2).
Proof.
  induction l1 as [| a l1 IH1]; intros l2.
  - intros _ _ H. now rewrite g_list_sort_merge_nil_l.
  - induction l2 as [| b l2 IH2]; intros Hd S1 S2.
    + now rewrite g_list_sort_merge_nil_r.
    + rewrite g_list_sort_merge_cons.
      pose proof (StronglySorted_inv S1) as [S1' F1].
      pose proof (StronglySorted_inv S2) as [S2' F2].
      assert (Hab : (compare_func a b <= 0 -> R a b)
                    /\ (compare_func a b > 0 -> R b a)).
      { apply Hd; apply in_or_app; [left | right]; now left. }
      destruct (Z.leb_spec (compare_func a b) 0) as [Hle | Hgt].
      * constructor.
        -- apply IH1; [| exact S1' | exact S2].
           eapply decides_incl; [| exact Hd].
           intros x Hx. now right.
        -- rewrite g_list_sort_merge_perm. apply Forall_app.
           split; [exact F1 |].
           destruct Hab as [Hab _]. specialize (Hab Hle).
           constructor; [exact Hab |].
           eapply Forall_impl; [| exact F2].
           intros c Hc. eapply R_trans; eassumption.
      * constructor.
        -- apply IH2; [| exact S1 | exact S2'].
           eapply decides_incl; [| exact Hd].
           intros x Hx. apply in_app_or in Hx. apply in_or_app.
           destruct Hx as [Hx | Hx]; [now left | right; now right].
        -- rewrite g_list_sort_merge_perm. apply Forall_app.
           destruct Hab as [_ Hab]. specialize (Hab ltac:(lia)).
           split; [| exact F2].
           constructor; [exact Hab |].
           eapply Forall_impl; [| exact F1].
           intros c Hc. eapply R_trans; eassumption.
Qed.

Lemma g_list_sort_real_sorted (fuel : nat) :
  forall l, (List.length l <= fuel)%nat -> decides compare_func R l ->
            StronglySorted R (g_list_sort_real compare_func fuel l).
Proof.
  induction fuel as [| fuel IH]; intros l Hlen Hd.
  - destruct l; [constructor | simpl in Hlen; lia].
  - destruct l as [| a [| b l]].
    + constructor.
    + simpl. repeat constructor.
    + cbn [g_list_sort_real].
      pose proof (halves_shorter a b l) as [Hf Hs].
      set (half := Nat.div2 (List.length (a :: b :: l))) in *.
      cbv zeta in Hf, Hs. fold half in Hf, Hs.
      pose proof (firstn_skipn half (a :: b :: l)) as Hcut.
      assert (Hd' : decides compare_func R (firstn half (a :: b :: l)
                             ++ skipn half (a :: b :: l)))
        by (rewrite Hcut; exact Hd).
      apply g_list_sort_merge_sorted.
      * eapply decides_incl; [| exact Hd'].
        intros x Hx. apply in_app_or in Hx. apply in_or_app.
        destruct Hx as [Hx | Hx]; [left | right];
          eapply Permutation_in; try exact Hx;
          apply g_list_sort_real_perm.
      * apply IH; [lia |]. eapply decides_incl; [| exact Hd'].
        intros x Hx. apply in_or_app. now left.
      * apply IH; [lia |]. eapply decides_incl; [| exact Hd'].
        intros x Hx. apply in_or_app. now right.
Qed.

Lemma g_list_sort_sorted (l : list A) :
  decides compare_func R l -> StronglySorted R (g_list_sort compare_func l).
Proof. apply g_list_sort_real_sorted. apply le_n. Qed.

End GListSortFacts.

(** ** The derivation touches the device only through [add_format] *)

Lemma state_of_bind {A : Type} (m : outcome A) (k : A -> outcome A) :
  state_of (bind m k (fun x => x))
  = match m with
    | Returns a => state_of (k a)
    | Spins a | Crashes a => a
    end.
Proof. destruct m; reflexivity. Qed.

Lemma doubling_sweep_offers (fuel : nat) :
  forall priv cur_w cur_h max_w max_h,
  exists candidates,
    state_of (doubling_sweep fuel priv cur_w cur_h max_w max_h)
    = add_all priv candidates.
Proof.
  induction fuel as [| fuel IH]; intros priv cur_w cur_h max_w max_h; simpl;
    destruct ((cur_w <=? max_w) && (cur_h <=? max_h));
    try (exists []; reflexivity).
  destruct (IH (cheese_camera_device_add_format priv
                  {| width := cur_w; height := cur_h |})
              (Gint.mul cur_w 2) (Gint.mul cur_h 2) max_w max_h)
    as [candidates H].
  exists ({| width := cur_w; height := cur_h |} :: candidates). exact H.
Qed.

Lemma halving_sweep_offers (fuel : nat) :
  forall priv cur_w cur_h min_w min_h,
  exists candidates,
    state_of (halving_sweep fuel priv cur_w cur_h min_w min_h)
    = add_all priv candidates.
Proof.
  induction fuel as [| fuel IH]; intros priv cur_w cur_h min_w min_h; simpl;
    destruct ((cur_w >? min_w) && (cur_h >? min_h));
    try (exists []; reflexivity).
  destruct (IH (cheese_camera_device_add_format priv
                  {| width := cur_w; height := cur_h |})
              (Gint.div cur_w 2) (Gint.div cur_h 2) min_w min_h)
    as [candidates H].
  exists ({| width := cur_w; height := cur_h |} :: candidates). exact H.
Qed.

Lemma format_table_entry_offers (fuel : nat) (priv : CheeseCameraDevicePrivate)
  (structure : GstStructure) :
  exists candidates,
    state_of (format_table_entry fuel priv structure) = add_all priv candidates.
Proof.
  unfold format_table_entry.
  destruct (G_VALUE_HOLDS_INT _).
  - eexists [ _ ]. reflexivity.
  - destruct (GST_VALUE_HOLDS_INT_RANGE _).
    + rewrite state_of_bind.
      match goal with
      | |- context [doubling_sweep fuel priv ?a ?b ?c ?d] =>
          destruct (doubling_sweep_offers fuel priv a b c d) as [c1 H1];
          destruct (doubling_sweep fuel priv a b c d) as [p | p | p] eqn:E;
          simpl in H1
      end; try (exists c1; exact H1).
      match goal with
      | |- context [halving_sweep fuel p ?a ?b ?c ?d] =>
          destruct (halving_sweep_offers fuel p a b c d) as [c2 H2]
      end.
      exists (c1 ++ c2). rewrite H2, H1. symmetry. apply add_all_app.
    + destruct (gst_structure_get_value _ _); exists []; reflexivity.
Qed.

Lemma format_table_loop_offers (fuel : nat) (structures : list GstStructure) :
  forall priv,
  exists candidates,
    state_of (format_table_loop fuel priv structures) = add_all priv candidates.
Proof.
  induction structures as [| structure rest IH]; intros priv; simpl.
  - exists []. reflexivity.
  - rewrite state_of_bind.
    destruct (format_table_entry_offers fuel priv structure) as [c1 H1].
    destruct (format_table_entry fuel priv structure) as [p | p | p];
      simpl in H1; try (exists c1; exact H1).
    destruct (IH p) as [c2 H2].
    exists (c1 ++ c2). rewrite H2, H1. symmetry. apply add_all_app.
Qed.

Lemma update_format_table_offers (fuel : nat) (priv : CheeseCameraDevicePrivate) :
  exists candidates,
    state_of (cheese_camera_device_update_format_table fuel priv)
    = set_formats priv (fold_left with_format candidates []).
Proof.
  unfold cheese_camera_device_update_format_table.
  destruct (format_table_loop_offers fuel (caps priv) (free_format_list priv))
    as [candidates H].
  exists candidates. rewrite H, add_all_unfold. reflexivity.
Qed.

Section ProbeFacts.

Variable gst_parse_launch : string -> option GstPipeline * option GError.
Variable gst_caps_intersect : GstCaps -> GstCaps -> GstCaps.

Lemma get_caps_probed (fuel : nat) (priv : CheeseCameraDevicePrivate) :
  probed priv
    (state_of (cheese_camera_device_get_caps gst_parse_launch
                 gst_caps_intersect fuel priv)).
Proof.
  unfold cheese_camera_device_get_caps.
  destruct (gst_parse_launch _) as [[pipeline |] [err |]];
    try apply probed_nothing.
  destruct (pipeline_bus_error pipeline); [apply probed_failed |].
  destruct (pipeline_state pipeline); try apply probed_nothing.
  match goal with
  | |- context [set_caps priv ?c] => set (filtered := c)
  end.
  destruct (gst_caps_is_empty (caps (set_caps priv filtered))); simpl.
  - apply probed_unsupported.
  - destruct (update_format_table_offers fuel (set_caps priv filtered))
      as [candidates H].
    rewrite H. apply probed_formats.
Qed.

Lemma probed_distinct (priv priv' : CheeseCameraDevicePrivate) :
  probed priv priv' ->
  distinct_sizes (formats priv) -> distinct_sizes (formats priv').
Proof.
  intros [c candidates | c | |] H; simpl; try exact H.
  apply fold_with_format_distinct. constructor.
Qed.

(** An error stored by a probe on a device that had none: its kind, and
    the format list is the one from before the probe. *)
Lemma probed_error (priv priv' : CheeseCameraDevicePrivate) (e : GError) :
  probed priv priv' ->
  construct_error priv = None -> construct_error priv' = Some e ->
  formats priv' = formats priv
  /\ domain e = CHEESE_CAMERA_DEVICE_ERROR
  /\ (code e = CHEESE_CAMERA_DEVICE_ERROR_UNSUPPORTED_CAPS
      \/ code e = CHEESE_CAMERA_DEVICE_ERROR_FAILED_INITIALIZATION).
Proof.
  intros [c candidates | c | |] Hn He; simpl in *.
  - congruence.
  - rewrite Hn in He. simpl in He. inversion He. simpl. auto.
  - rewrite Hn in He. simpl in He. inversion He. simpl. auto.
  - congruence.
Qed.

Lemma construct_device_starts (fuel : nat)
  (uuid0 node0 name0 : option string) (version : Z) :
  construct_device gst_parse_launch gst_caps_intersect fuel
    uuid0 node0 name0 version
  = cheese_camera_device_get_caps gst_parse_launch gst_caps_intersect fuel
      (initial_device uuid0 node0 name0 version).
Proof.
  unfold construct_device, cheese_camera_device_constructed, initial_device,
    stored_version, v4lapi_version_valid, V4LAPI_VERSION_MINIMUM,
    V4LAPI_VERSION_MAXIMUM.
  destruct ((1 <=? version) && (version <=? 2)) eqn:Hvalid.
  - reflexivity.
  - assert (Hne : (version =? 2) = false).
    { apply Z.eqb_neq. intros ->. discriminate Hvalid. }
    rewrite Hne. reflexivity.
Qed.

Lemma construct_probed (fuel : nat) (uuid0 node0 name0 : option string)
  (version : Z) :
  exists fresh,
    formats fresh = [] /\ construct_error fresh = None
    /\ device_node fresh = node0
    /\ probed fresh
         (state_of (construct_device gst_parse_launch gst_caps_intersect
                      fuel uuid0 node0 name0 version)).
Proof.
  rewrite construct_device_starts.
  exists (initial_device uuid0 node0 name0 version).
  split; [| split; [| split]];
    [| | | apply get_caps_probed]; reflexivity.
Qed.

End ProbeFacts.

(** ** The format list of a device, finalization and the empty query *)

(** C7.  The format list never holds two entries with equal width and
    equal height.  Adding a format whose size is already listed leaves the
    device unchanged, and adding any format to a list of distinct sizes
    gives a list of distinct sizes; the list is emptied before derivation;
    so the list is of distinct sizes in whatever state the derivation is
    left (returned, still looping when the budget ends, or faulted), over
    fixed and ranged descriptions alike, and so are the list of a
    constructed device and the sorted copy that GetFormats returns. *)
Theorem format_list_sizes_distinct
  (gst_parse_launch : string -> option GstPipeline * option GError)
  (gst_caps_intersect : GstCaps -> GstCaps -> GstCaps)
  (fuel : nat) (uuid0 node0 name0 : option string) (version : Z)
  (priv : CheeseCameraDevicePrivate) (format : CheeseVideoFormat) :
  (In (dims format) (map dims (formats priv)) ->
   cheese_camera_device_add_format priv format = priv)
  /\ (distinct_sizes (formats priv) ->
      distinct_sizes (formats (cheese_camera_device_add_format priv format)))
  /\ distinct_sizes (formats (free_format_list priv))
  /\ distinct_sizes
       (formats (state_of (cheese_camera_device_update_format_table fuel priv)))
  /\ distinct_sizes
       (formats (state_of (construct_device gst_parse_launch gst_caps_intersect
                             fuel uuid0 node0 name0 version)))
  /\ distinct_sizes
       (cheese_camera_device_get_format_list
          (state_of (construct_device gst_parse_launch gst_caps_intersect
                       fuel uuid0 node0 name0 version))).
Proof.
  assert (Built : distinct_sizes
            (formats (state_of (construct_device gst_parse_launch
                                  gst_caps_intersect fuel uuid0 node0 name0
                                  version)))).
  { destruct (construct_probed gst_parse_launch gst_caps_intersect fuel
                uuid0 node0 name0 version) as [fresh [He [_ [_ Hp]]]].
    eapply probed_distinct; [exact Hp |]. rewrite He. constructor. }
  repeat split.
  - intros Hin. rewrite add_format_unfold, with_format_present by exact Hin.
    apply set_formats_same.
  - intros Hd. rewrite add_format_unfold. simpl.
    apply with_format_distinct, Hd.
  - constructor.
  - destruct (update_format_table_offers fuel priv) as [candidates H].
    rewrite H. simpl. apply fold_with_format_distinct. constructor.
  - exact Built.
  - unfold distinct_sizes, cheese_camera_device_get_format_list, g_list_copy.
    eapply Permutation_NoDup; [| exact Built].
    apply Permutation_map. symmetry. apply g_list_sort_perm.
Qed.

(** C8.  Finalization with a cancellation request returns FALSE with the
    not-supported error (when the caller gave a place for it) and leaves
    the device as it was, whatever the stored construction state: the
    result does not depend on [construct_error].  The error code differs
    from both codes a probe can store. *)
Theorem cancellable_init_not_supported
  (priv : CheeseCameraDevicePrivate) (cancellable : GCancellable)
  (error : bool) :
  cheese_camera_device_initable_init priv (Some cancellable) error
  = (priv, false,
     if error
     then Some {| domain := CHEESE_CAMERA_DEVICE_ERROR;
                  code := CHEESE_CAMERA_DEVICE_ERROR_NOT_SUPPORTED;
                  message := "Cancellable initialization not supported" |}
     else None)
  /\ cheese_camera_device_initable_init
       (set_construct_error priv None) (Some cancellable) true
     = (set_construct_error priv None, false,
        Some {| domain := CHEESE_CAMERA_DEVICE_ERROR;
                code := CHEESE_CAMERA_DEVICE_ERROR_NOT_SUPPORTED;
                message := "Cancellable initialization not supported" |})
  /\ (forall gst_parse_launch gst_caps_intersect fuel uuid0 node0 name0
             version e,
         construct_error
           (state_of (construct_device gst_parse_launch gst_caps_intersect
                        fuel uuid0 node0 name0 version)) = Some e ->
         code e <> CHEESE_CAMERA_DEVICE_ERROR_NOT_SUPPORTED).
Proof.
  split; [| split].
  - destruct error; reflexivity.
  - reflexivity.
  - intros launch intersect fuel uuid0 node0 name0 version e He.
    destruct (construct_probed launch intersect fuel uuid0 node0 name0 version)
      as [fresh [_ [Hn [_ Hp]]]].
    destruct (probed_error _ _ e Hp Hn He) as [_ [_ [Hc | Hc]]];
      rewrite Hc; discriminate.
Qed.

(** C9.  Finalization without a cancellation request: with a stored
    construction error it returns FALSE and hands out that error (an equal
    copy, when the caller gave a place for it); with none it returns TRUE.
    Either way the device is left as it was, stored error included, so a
    second call gives the same answer; the call takes no pipeline and so
    cannot probe again. *)
Theorem init_replays_construct_error
  (priv : CheeseCameraDevicePrivate) (error : bool) :
  (forall e, construct_error priv = Some e ->
             cheese_camera_device_initable_init priv None error
             = (priv, false, if error then Some e else None))
  /\ (construct_error priv = None ->
      cheese_camera_device_initable_init priv None error = (priv, true, None))
  /\ fst (fst (cheese_camera_device_initable_init priv None error)) = priv
  /\ cheese_camera_device_initable_init
       (fst (fst (cheese_camera_device_initable_init priv None error)))
       None error
     = cheese_camera_device_initable_init priv None error.
Proof.
  unfold cheese_camera_device_initable_init.
  destruct (construct_error priv) as [e |] eqn:E; repeat split;
    try discriminate; simpl; try rewrite E; try reflexivity.
  intros e' He. inversion He. reflexivity.
Qed.

(** C10.  GetFormats on a handle without formats returns the empty list:
    the sort of an empty copy is empty.  This covers the freshly
    initialized device, whose list is empty, and a device whose
    construction stored an error, whose list is still the empty one. *)
Theorem get_format_list_without_formats
  (gst_parse_launch : string -> option GstPipeline * option GError)
  (gst_caps_intersect : GstCaps -> GstCaps -> GstCaps)
  (fuel : nat) (uuid0 node0 name0 : option string) (version : Z)
  (priv : CheeseCameraDevicePrivate) :
  formats priv = []
  \/ (priv = state_of (construct_device gst_parse_launch gst_caps_intersect
                         fuel uuid0 node0 name0 version)
      /\ construct_error priv <> None) ->
  cheese_camera_device_get_format_list priv = []
  /\ formats cheese_camera_device_init = [].
Proof.
  intros H. split; [| reflexivity].
  assert (He : formats priv = []).
  { destruct H as [H | [Hd Herr]]; [exact H |].
    destruct (construct_probed gst_parse_launch gst_caps_intersect fuel
                uuid0 node0 name0 version) as [fresh [Hf [Hn [_ Hp]]]].
    rewrite <- Hd in Hp.
    destruct (construct_error priv) as [e |] eqn:E; [| congruence].
    destruct (probed_error _ _ e Hp Hn E) as [Hsame _]. congruence. }
  unfold cheese_camera_device_get_format_list. rewrite He. reflexivity.
Qed.

Lemma get_format_list_without_formats_witness :
  (formats cheese_camera_device_init = []
   \/ (cheese_camera_device_init
       = state_of (construct_device (GstModel.parse_fails
                                       {| domain := "gst-parse-error";
                                          code := 1;
                                          message := "no element" |})
                     GstModel.caps_intersect 0 None None None 2)
       /\ construct_error cheese_camera_device_init <> None))
  /\ cheese_camera_device_get_format_list cheese_camera_device_init = [].
Proof.
  assert (H : formats cheese_camera_device_init = []
              \/ (cheese_camera_device_init
                  = state_of (construct_device
                                (GstModel.parse_fails
                                   {| domain := "gst-parse-error";
                                      code := 1;
                                      message := "no element" |})
                                GstModel.caps_intersect 0 None None None 2)
                  /\ construct_error cheese_camera_device_init <> None))
    by (left; reflexivity).
  split; [exact H |].
  exact (proj1 (get_format_list_without_formats _ _ _ _ _ _ _ _ H)).
Defined.

(** ** Probes that reach the capability filter *)

Section ReadyProbe.

Variable gst_parse_launch : string -> option GstPipeline * option GError.
Variable gst_caps_intersect : GstCaps -> GstCaps -> GstCaps.
Variables (uuid0 node0 name0 : option string) (version : Z).
Variable pipeline : GstPipeline.

Hypothesis launched :
  gst_parse_launch (pipeline_description version node0)
  = (Some pipeline, None).
Hypothesis no_bus_error : pipeline_bus_error pipeline = None.
Hypothesis ready : pipeline_state pipeline = GST_STATE_CHANGE_SUCCESS.

Lemma construct_device_ready (fuel : nat) :
  construct_device gst_parse_launch gst_caps_intersect fuel
    uuid0 node0 name0 version
  = if negb (gst_caps_is_empty
               (gst_caps_intersect (pipeline_source_caps pipeline)
                  policy_filter))
    then cheese_camera_device_update_format_table fuel
           (filtered_device gst_caps_intersect uuid0 node0 name0 version
              pipeline)
    else Returns
           (set_construct_error
              (filtered_device gst_caps_intersect uuid0 node0 name0 version
                 pipeline)
              (Some {| domain := CHEESE_CAMERA_DEVICE_ERROR;
                       code := CHEESE_CAMERA_DEVICE_ERROR_UNSUPPORTED_CAPS;
                       message := "Device capabilities not supported" |})).
Proof.
  rewrite construct_device_starts.
  unfold cheese_camera_device_get_caps.
  change (gst_parse_launch
            (printf_s (src (initial_device _ _ _ _)) ++ " name=source device="
               ++ printf_s (device_node (initial_device _ _ _ _))
               ++ " ! fakesink")%string)
    with (gst_parse_launch (pipeline_description version node0)).
  rewrite launched, no_bus_error, ready. reflexivity.
Qed.

End ReadyProbe.

(** C4.  When the pipeline of the probe parses and reaches the ready state
    with no error on the bus, and the intersection of the caps its source
    offers with the policy filter (raw RGB and raw YUV, 0/1 to 30/1 frames
    a second) is empty, construction returns with the
    unsupported-capabilities error stored and an empty format list, and
    [cheese_camera_device_new] hands out no device but that error. *)
Theorem empty_filtered_caps_unsupported
  (gst_parse_launch : string -> option GstPipeline * option GError)
  (gst_caps_intersect : GstCaps -> GstCaps -> GstCaps)
  (fuel : nat) (uuid0 node0 name0 : option string) (version : Z)
  (pipeline : GstPipeline) :
  gst_parse_launch (pipeline_description version node0)
  = (Some pipeline, None) ->
  pipeline_bus_error pipeline = None ->
  pipeline_state pipeline = GST_STATE_CHANGE_SUCCESS ->
  gst_caps_is_empty
    (gst_caps_intersect (pipeline_source_caps pipeline) policy_filter) = true ->
  cheese_camera_device_filter_caps gst_caps_intersect
    (pipeline_source_caps pipeline) supported_formats
  = gst_caps_intersect (pipeline_source_caps pipeline) policy_filter
  /\ (exists priv,
         construct_device gst_parse_launch gst_caps_intersect fuel
           uuid0 node0 name0 version = Returns priv
         /\ construct_error priv
            = Some {| domain := CHEESE_CAMERA_DEVICE_ERROR;
                      code := CHEESE_CAMERA_DEVICE_ERROR_UNSUPPORTED_CAPS;
                      message := "Device capabilities not supported" |}
         /\ formats priv = []
         /\ cheese_camera_device_get_format_list priv = [])
  /\ cheese_camera_device_new gst_parse_launch gst_caps_intersect fuel
       uuid0 node0 name0 version true
     = Returns
         (None,
          Some {| domain := CHEESE_CAMERA_DEVICE_ERROR;
                  code := CHEESE_CAMERA_DEVICE_ERROR_UNSUPPORTED_CAPS;
                  message := "Device capabilities not supported" |}).
Proof.
  intros Hl Hb Hs He.
  pose proof (construct_device_ready gst_parse_launch gst_caps_intersect
                uuid0 node0 name0 version pipeline Hl Hb Hs fuel) as Hc.
  rewrite He in Hc. simpl in Hc.
  split; [reflexivity | split].
  - eexists. split; [exact Hc |]. repeat split.
  - unfold cheese_camera_device_new. rewrite Hc. reflexivity.
Qed.

Lemma empty_filtered_caps_unsupported_witness :
  let pipeline :=
    GstModel.ready
      [ GstModel.video "image/jpeg" (G_INT 640) (G_INT 480) ] in
  (GstModel.launches pipeline (pipeline_description 2 (Some "/dev/video0"%string))
   = (Some pipeline, None)
   /\ pipeline_bus_error pipeline = None
   /\ pipeline_state pipeline = GST_STATE_CHANGE_SUCCESS
   /\ gst_caps_is_empty
        (GstModel.caps_intersect (pipeline_source_caps pipeline) policy_filter)
      = true)
  /\ cheese_camera_device_new (GstModel.launches pipeline)
       GstModel.caps_intersect 40 (Some "uuid"%string)
       (Some "/dev/video0"%string) (Some "camera"%string) 2 true
     = Returns
         (None,
          Some {| domain := CHEESE_CAMERA_DEVICE_ERROR;
                  code := CHEESE_CAMERA_DEVICE_ERROR_UNSUPPORTED_CAPS;
                  message := "Device capabilities not supported" |}).
Proof.
  intros pipeline.
  assert (H : GstModel.launches pipeline
                (pipeline_description 2 (Some "/dev/video0"%string))
              = (Some pipeline, None)
              /\ pipeline_bus_error pipeline = None
              /\ pipeline_state pipeline = GST_STATE_CHANGE_SUCCESS
              /\ gst_caps_is_empty
                   (GstModel.caps_intersect (pipeline_source_caps pipeline)
                      policy_filter) = true)
    by (repeat split).
  split; [exact H |].
  destruct H as [H1 [H2 [H3 H4]]].
  exact (proj2 (proj2 (empty_filtered_caps_unsupported
                         (GstModel.launches pipeline) GstModel.caps_intersect
                         40 (Some "uuid"%string) (Some "/dev/video0"%string)
                         (Some "camera"%string) 2 pipeline H1 H2 H3 H4))).
Defined.

(** ** Probes that fail without a message on the bus *)

(** C3 (the code at the failing inputs).  A probe whose pipeline does not
    reach the ready state (the state change is still pending after the
    timeout, or has failed) while no error message is on the bus leaves the
    device exactly as it was: no construction error is stored.  The same
    holds when the pipeline description does not parse.  Construction then
    succeeds, with an empty format list.  Only a message on the bus stores
    the failed-initialization error. *)
Theorem probe_failure_stores_no_error
  (gst_caps_intersect : GstCaps -> GstCaps -> GstCaps) (fuel : nat)
  (priv : CheeseCameraDevicePrivate) (offered : GstCaps) (err : GError) :
  cheese_camera_device_get_caps
    (GstModel.launches {| pipeline_state := GST_STATE_CHANGE_ASYNC;
                          pipeline_bus_error := None;
                          pipeline_source_caps := offered |})
    gst_caps_intersect fuel priv = Returns priv
  /\ cheese_camera_device_get_caps
       (GstModel.launches {| pipeline_state := GST_STATE_CHANGE_FAILURE;
                             pipeline_bus_error := None;
                             pipeline_source_caps := offered |})
       gst_caps_intersect fuel priv = Returns priv
  /\ cheese_camera_device_get_caps (GstModel.parse_fails err)
       gst_caps_intersect fuel priv = Returns priv
  /\ cheese_camera_device_new
       (GstModel.launches {| pipeline_state := GST_STATE_CHANGE_ASYNC;
                             pipeline_bus_error := None;
                             pipeline_source_caps := offered |})
       gst_caps_intersect fuel (Some "uuid"%string)
       (Some "/dev/video0"%string) (Some "camera"%string) 2 true
     = Returns
         (Some {| device_node := Some "/dev/video0"%string;
                  uuid := Some "uuid"%string;
                  src := Some "v4l2src"%string;
                  name := Some "camera"%string;
                  v4lapi_version := 2;
                  caps := [];
                  formats := [];
                  construct_error := None |},
          None)
  /\ (forall message0,
         cheese_camera_device_get_caps
           (GstModel.launches {| pipeline_state := GST_STATE_CHANGE_FAILURE;
                                 pipeline_bus_error := Some message0;
                                 pipeline_source_caps := offered |})
           gst_caps_intersect fuel priv
         = Returns
             (set_construct_error priv
                (g_set_error (construct_error priv)
                   CHEESE_CAMERA_DEVICE_ERROR
                   CHEESE_CAMERA_DEVICE_ERROR_FAILED_INITIALIZATION
                   ("Failed to initialize device "
                      ++ printf_s (device_node priv)
                      ++ " for capability probing")%string))).
Proof. repeat split. Qed.

(** ** Sorting by area *)

Lemma compare_formats_exact (c d : CheeseVideoFormat) :
  area_fits c -> area_fits d -> compare_formats c d = area d - area c.
Proof.
  unfold area_fits, compare_formats, area, Gint.mul, Gint.sub, Gint.G_MAXINT.
  intros Hc Hd.
  rewrite (gint_wrap_small (width d * height d)),
    (gint_wrap_small (width c * height c)), gint_wrap_small;
    unfold Gint.in_range, Gint.G_MININT, Gint.G_MAXINT; lia.
Qed.

(** X1.  Where the area of every listed format is between 0 and
    [G_MAXINT], GetFormats returns a rearrangement of the format list in
    which every format has at least the area of each format after it. *)
Theorem get_format_list_descending_when_areas_fit
  (priv : CheeseCameraDevicePrivate) :
  Forall area_fits (formats priv) ->
  by_descending_area (cheese_camera_device_get_format_list priv)
  /\ Permutation (cheese_camera_device_get_format_list priv) (formats priv).
Proof.
  intros Hfit. split; [| apply g_list_sort_perm].
  apply g_list_sort_sorted; [intros a b c; lia |].
  intros a b Ha Hb. rewrite Forall_forall in Hfit.
  rewrite (compare_formats_exact a b) by (apply Hfit; assumption). lia.
Qed.

Lemma get_format_list_descending_when_areas_fit_witness :
  let priv :=
    set_formats cheese_camera_device_init
      [ {| width := 160; height := 120 |}; {| width := 640; height := 480 |};
        {| width := 320; height := 240 |} ] in
  Forall area_fits (formats priv)
  /\ by_descending_area (cheese_camera_device_get_format_list priv).
Proof.
  intros priv.
  assert (H : Forall area_fits (formats priv))
    by (repeat constructor; unfold area, Gint.G_MAXINT; simpl; lia).
  split; [exact H |].
  exact (proj1 (get_format_list_descending_when_areas_fit priv H)).
Defined.

(** C1 (the code at the failing input).  A capture source offering 640x480
    and 65536x65536 constructs without error.  The area of the second
    format, 2^32, wraps to 0 in [compare_formats], so GetFormats returns
    640x480 before 65536x65536 although its area is smaller.  A single
    ranged description from 1x1 to 65536x65536 shows the same: 65536x65536
    comes last, after 1x1. *)
Theorem get_format_list_area_overflow :
  (exists priv,
      cheese_camera_device_new
        (GstModel.launches
           (GstModel.ready
              [ GstModel.video "video/x-raw-yuv" (G_INT 640) (G_INT 480);
                GstModel.video "video/x-raw-yuv" (G_INT 65536) (G_INT 65536) ]))
        GstModel.caps_intersect 40 (Some "uuid"%string)
        (Some "/dev/video0"%string) (Some "camera"%string) 2 true
      = Returns (Some priv, None)
      /\ construct_error priv = None
      /\ cheese_camera_device_get_format_list priv
         = [ {| width := 640; height := 480 |};
             {| width := 65536; height := 65536 |} ]
      /\ ~ by_descending_area (cheese_camera_device_get_format_list priv))
  /\ area {| width := 640; height := 480 |}
     < area {| width := 65536; height := 65536 |}
  /\ compare_formats {| width := 640; height := 480 |}
       {| width := 65536; height := 65536 |} = -307200
  /\ (exists priv,
         construct_device
           (GstModel.launches
              (GstModel.ready
                 [ GstModel.video "video/x-raw-yuv" (GST_INT_RANGE 1 65536)
                     (GST_INT_RANGE 1 65536) ]))
           GstModel.caps_intersect 40 (Some "uuid"%string)
           (Some "/dev/video0"%string) (Some "camera"%string) 2
         = Returns priv
         /\ construct_error priv = None
         /\ skipn 15 (cheese_camera_device_get_format_list priv)
            = [ {| width := 1; height := 1 |};
                {| width := 65536; height := 65536 |} ]).
Proof.
  split; [| split; [| split]].
  - eexists. split; [vm_compute; reflexivity |].
    split; [reflexivity |].
    assert (E : forall l,
               l = [ {| width := 640; height := 480 |};
                     {| width := 65536; height := 65536 |} ] ->
               ~ by_descending_area l).
    { intros l -> H. apply StronglySorted_inv in H. destruct H as [_ H].
      apply Forall_inv in H. unfold area in H. simpl in H. lia. }
    split; [vm_compute; reflexivity | apply E; vm_compute; reflexivity].
  - vm_compute. reflexivity.
  - vm_compute. reflexivity.
  - eexists. split; [vm_compute; reflexivity |].
    split; vm_compute; reflexivity.
Qed.

(** ** Probes that reach the format table *)

Lemma with_format_Forall (P : CheeseVideoFormat -> Prop)
  (l : list CheeseVideoFormat) (f : CheeseVideoFormat) :
  Forall P l -> P f -> Forall P (with_format l f).
Proof.
  intros Hl Hf. unfold with_format. destruct (format_listed l f);
    [exact Hl | apply Forall_app; split; [exact Hl | now constructor]].
Qed.

Lemma fold_with_format_Forall (P : CheeseVideoFormat -> Prop)
  (candidates : list CheeseVideoFormat) :
  forall l, Forall P l -> Forall P candidates ->
            Forall P (fold_left with_format candidates l).
Proof.
  induction candidates as [| f rest IH]; intros l Hl Hc; simpl; [exact Hl |].
  inversion Hc; subst. apply IH; [apply with_format_Forall |]; assumption.
Qed.

Lemma with_format_nonempty (l : list CheeseVideoFormat) (f : CheeseVideoFormat) :
  with_format l f <> [].
Proof.
  unfold with_format. destruct (format_listed l f) eqn:E.
  - destruct l; [simpl in E; discriminate E | discriminate].
  - destruct l; simpl; discriminate.
Qed.

Lemma fold_with_format_nonempty (candidates : list CheeseVideoFormat) :
  forall l, l <> [] \/ candidates <> [] ->
            fold_left with_format candidates l <> [].
Proof.
  induction candidates as [| f rest IH]; intros l H; simpl.
  - destruct H as [H | H]; [exact H | congruence].
  - apply IH. left. apply with_format_nonempty.
Qed.

Lemma doubled_positive (w h : Z) (n : nat) :
  0 < w -> 0 < h -> Forall positive_size (doubled w h n).
Proof.
  intros Hw Hh. apply Forall_forall. intros f Hin. unfold doubled in Hin.
  apply in_map_iff in Hin. destruct Hin as [k [<- _]].
  pose proof (pow2_pos k). split; simpl; nia.
Qed.

Lemma halved_above (max_w max_h min_w min_h : Z) (n : nat) :
  (forall k, (k < n)%nat -> halving_continues max_w max_h min_w min_h k) ->
  Forall (fun f => width f > min_w /\ height f > min_h) (halved max_w max_h n).
Proof.
  intros Hall. apply Forall_forall. intros f Hin. unfold halved in Hin.
  apply in_map_iff in Hin. destruct Hin as [k [<- Hk]].
  apply in_seq in Hk. simpl. apply Hall. lia.
Qed.

Lemma format_table_entry_positive (fuel : nat)
  (priv : CheeseCameraDevicePrivate) (s : GstStructure) :
  positive_description s -> (31 <= fuel)%nat ->
  exists candidates,
    format_table_entry fuel priv s = Returns (add_all priv candidates)
    /\ candidates <> [] /\ Forall positive_size candidates.
Proof.
  unfold positive_description, format_table_entry, gst_structure_get_int.
  intros Hpos Hfuel.
  destruct (gst_structure_get_value (structure_fields s) "width")
    as [[w | min_w max_w | | |] |]; try contradiction;
    destruct (gst_structure_get_value (structure_fields s) "height")
    as [[h | min_h max_h | | |] |]; try contradiction; simpl.
  - exists [ {| width := w; height := h |} ].
    split; [reflexivity | split; [discriminate |]].
    constructor; [exact Hpos | constructor].
  - destruct Hpos as [Hw [Hh [Bw Bh]]].
    destruct (doubling_sweep_returns fuel priv min_w min_h max_w max_h)
      as [n [Hd [Dall Dstop]]]; try lia.
    rewrite Hd. simpl.
    destruct (halving_sweep_returns fuel (add_all priv (doubled min_w min_h n))
                max_w max_h min_w min_h) as [m [Hh' [Hall _]]];
      try lia;
      try (unfold Gint.in_range, Gint.G_MININT, Gint.G_MAXINT in *; lia).
    rewrite Hh'. exists (doubled min_w min_h n ++ halved max_w max_h m).
    split; [now rewrite add_all_app |]. split.
    + destruct n as [| n].
      * exfalso. apply Dstop. unfold doubling_continues. simpl. lia.
      * rewrite doubled_S. discriminate.
    + apply Forall_app. split; [apply doubled_positive; lia |].
      eapply Forall_impl; [| apply halved_above, Hall].
      intros f [Fw Fh]. unfold positive_size. lia.
Qed.

Lemma format_table_loop_positive (fuel : nat) (structures : list GstStructure) :
  forall priv,
    Forall positive_description structures -> (31 <= fuel)%nat ->
    exists candidates,
      format_table_loop fuel priv structures
      = Returns (add_all priv candidates)
      /\ (structures <> [] -> candidates <> [])
      /\ Forall positive_size candidates.
Proof.
  induction structures as [| s rest IH]; intros priv Hall Hfuel; simpl.
  - exists []. split; [reflexivity | split; [congruence | constructor]].
  - inversion Hall as [| ? ? Hs Hrest]; subst.
    destruct (format_table_entry_positive fuel priv s Hs Hfuel)
      as [c1 [E1 [N1 P1]]].
    rewrite E1. simpl.
    destruct (IH (add_all priv c1) Hrest Hfuel) as [c2 [E2 [_ P2]]].
    rewrite E2. exists (c1 ++ c2).
    split; [now rewrite add_all_app |]. split.
    + intros _ H. apply app_eq_nil in H. destruct H. contradiction.
    + apply Forall_app. split; assumption.
Qed.

(** C2 (as amended).  When the pipeline of the probe parses and reaches
    the ready state with no error on the bus, and the filtered capability
    set is not empty and holds only descriptions with fixed positive width
    and height, or with ranged width and height whose minima are positive
    and do not exceed the maxima (the maxima at most 1073741823),
    construction returns with no construction error stored, finalization
    succeeds, and the format list is not empty and holds only entries of
    strictly positive width and height. *)
Theorem ready_probe_lists_positive_formats
  (gst_parse_launch : string -> option GstPipeline * option GError)
  (gst_caps_intersect : GstCaps -> GstCaps -> GstCaps)
  (fuel : nat) (uuid0 node0 name0 : option string) (version : Z)
  (pipeline : GstPipeline) :
  gst_parse_launch (pipeline_description version node0)
  = (Some pipeline, None) ->
  pipeline_bus_error pipeline = None ->
  pipeline_state pipeline = GST_STATE_CHANGE_SUCCESS ->
  gst_caps_is_empty
    (gst_caps_intersect (pipeline_source_caps pipeline) policy_filter) = false ->
  Forall positive_description
    (gst_caps_intersect (pipeline_source_caps pipeline) policy_filter) ->
  (31 <= fuel)%nat ->
  exists priv,
    construct_device gst_parse_launch gst_caps_intersect fuel
      uuid0 node0 name0 version = Returns priv
    /\ construct_error priv = None
    /\ formats priv <> []
    /\ Forall positive_size (formats priv)
    /\ cheese_camera_device_new gst_parse_launch gst_caps_intersect fuel
         uuid0 node0 name0 version true = Returns (Some priv, None).
Proof.
  intros Hl Hb Hs Hne Hpos Hfuel.
  pose proof (construct_device_ready gst_parse_launch gst_caps_intersect
                uuid0 node0 name0 version pipeline Hl Hb Hs fuel) as Hc.
  rewrite Hne in Hc. simpl in Hc.
  unfold cheese_camera_device_update_format_table in Hc.
  destruct (format_table_loop_positive fuel
              (caps (filtered_device gst_caps_intersect uuid0 node0 name0
                       version pipeline))
              (free_format_list
                 (filtered_device gst_caps_intersect uuid0 node0 name0
                    version pipeline)) Hpos Hfuel)
    as [candidates [E [Hn Hp]]].
  rewrite E in Hc. rewrite add_all_unfold in Hc.
  eexists. split; [exact Hc |]. simpl.
  split; [reflexivity |]. split; [| split].
  - apply fold_with_format_nonempty. right. apply Hn.
    intros Hnil. simpl in Hnil.
    rewrite Hnil in Hne. discriminate Hne.
  - apply fold_with_format_Forall; [constructor | exact Hp].
  - unfold cheese_camera_device_new. rewrite Hc. reflexivity.
Qed.

Lemma ready_probe_lists_positive_formats_witness :
  let pipeline :=
    GstModel.ready
      [ GstModel.video "video/x-raw-yuv" (GST_INT_RANGE 160 640)
          (GST_INT_RANGE 120 480);
        GstModel.video "video/x-raw-rgb" (G_INT 1280) (G_INT 720) ] in
  (GstModel.launches pipeline (pipeline_description 2 (Some "/dev/video0"%string))
   = (Some pipeline, None)
   /\ pipeline_bus_error pipeline = None
   /\ pipeline_state pipeline = GST_STATE_CHANGE_SUCCESS
   /\ gst_caps_is_empty
        (GstModel.caps_intersect (pipeline_source_caps pipeline) policy_filter)
      = false
   /\ Forall positive_description
        (GstModel.caps_intersect (pipeline_source_caps pipeline) policy_filter)
   /\ (31 <= 31)%nat)
  /\ exists priv,
      construct_device (GstModel.launches pipeline) GstModel.caps_intersect 31
        (Some "uuid"%string) (Some "/dev/video0"%string)
        (Some "camera"%string) 2 = Returns priv
      /\ construct_error priv = None
      /\ formats priv <> []
      /\ Forall positive_size (formats priv)
      /\ cheese_camera_device_new (GstModel.launches pipeline)
           GstModel.caps_intersect 31 (Some "uuid"%string)
           (Some "/dev/video0"%string) (Some "camera"%string) 2 true
         = Returns (Some priv, None).
Proof.
  intros pipeline.
  assert (H : GstModel.launches pipeline
                (pipeline_description 2 (Some "/dev/video0"%string))
              = (Some pipeline, None)
              /\ pipeline_bus_error pipeline = None
              /\ pipeline_state pipeline = GST_STATE_CHANGE_SUCCESS
              /\ gst_caps_is_empty
                   (GstModel.caps_intersect (pipeline_source_caps pipeline)
                      policy_filter) = false
              /\ Forall positive_description
                   (GstModel.caps_intersect (pipeline_source_caps pipeline)
                      policy_filter)
              /\ (31 <= 31)%nat).
  { repeat split; try reflexivity.
    repeat constructor; unfold Gint.G_MAXINT; cbn; lia. }
  split; [exact H |].
  destruct H as [H1 [H2 [H3 [H4 [H5 H6]]]]].
  exact (ready_probe_lists_positive_formats
           (GstModel.launches pipeline) GstModel.caps_intersect
           31 (Some "uuid"%string) (Some "/dev/video0"%string)
           (Some "camera"%string) 2 pipeline H1 H2 H3 H4 H5 H6).
Defined.

(** C2 (counterexamples to the claim as stated).  A capture source whose
    only description carries a width of a type the derivation does not
    handle (a list of widths, say) reaches the ready state, passes the
    filter, and is constructed with no construction error and an empty
    format list: the entry is skipped and nothing else is checked.  A
    source offering the fixed size 0x0 is constructed with no error and the
    entry 0x0 in its list: sizes are not validated. *)
Lemma construction_without_error_lists_nothing :
  (exists priv,
      cheese_camera_device_new
        (GstModel.launches
           (GstModel.ready [ GstModel.video "video/x-raw-yuv" G_OTHER G_OTHER ]))
        GstModel.caps_intersect 40 (Some "uuid"%string)
        (Some "/dev/video0"%string) (Some "camera"%string) 2 true
      = Returns (Some priv, None)
      /\ construct_error priv = None
      /\ gst_caps_is_empty (caps priv) = false
      /\ formats priv = []
      /\ cheese_camera_device_get_best_format priv = None)
  /\ (exists priv,
         cheese_camera_device_new
           (GstModel.launches
              (GstModel.ready
                 [ GstModel.video "video/x-raw-yuv" (G_INT 0) (G_INT 0) ]))
           GstModel.caps_intersect 40 (Some "uuid"%string)
           (Some "/dev/video0"%string) (Some "camera"%string) 2 true
         = Returns (Some priv, None)
         /\ construct_error priv = None
         /\ formats priv = [ {| width := 0; height := 0 |} ]).
Proof.
  split; eexists; (split; [vm_compute; reflexivity |]); repeat split.
Qed.

(** ** Probes that post an error on the bus *)

(** X2.  When the pipeline of the probe parses and an error message is on
    its bus, construction stores the failed-initialization error, whose
    message names the device node, the format list stays empty, and
    [cheese_camera_device_new] hands out no device but that error. *)
Theorem bus_error_failed_initialization
  (gst_parse_launch : string -> option GstPipeline * option GError)
  (gst_caps_intersect : GstCaps -> GstCaps -> GstCaps)
  (fuel : nat) (uuid0 node0 name0 : option string) (version : Z)
  (pipeline : GstPipeline) (posted : GstMessage) :
  gst_parse_launch (pipeline_description version node0)
  = (Some pipeline, None) ->
  pipeline_bus_error pipeline = Some posted ->
  exists priv,
    construct_device gst_parse_launch gst_caps_intersect fuel
      uuid0 node0 name0 version = Returns priv
    /\ construct_error priv
       = Some {| domain := CHEESE_CAMERA_DEVICE_ERROR;
                 code := CHEESE_CAMERA_DEVICE_ERROR_FAILED_INITIALIZATION;
                 message :=
                   ("Failed to initialize device " ++ printf_s node0
                      ++ " for capability probing")%string |}
    /\ formats priv = []
    /\ cheese_camera_device_new gst_parse_launch gst_caps_intersect fuel
         uuid0 node0 name0 version true
       = Returns (None, construct_error priv).
Proof.
  intros Hl Hb.
  assert (Hc : exists priv,
             construct_device gst_parse_launch gst_caps_intersect fuel
               uuid0 node0 name0 version = Returns priv
             /\ construct_error priv
                = Some {| domain := CHEESE_CAMERA_DEVICE_ERROR;
                          code :=
                            CHEESE_CAMERA_DEVICE_ERROR_FAILED_INITIALIZATION;
                          message :=
                            ("Failed to initialize device " ++ printf_s node0
                               ++ " for capability probing")%string |}
             /\ formats priv = []).
  { rewrite construct_device_starts.
    unfold cheese_camera_device_get_caps.
    change (gst_parse_launch
              (printf_s (src (initial_device _ _ _ _)) ++ " name=source device="
                 ++ printf_s (device_node (initial_device _ _ _ _))
                 ++ " ! fakesink")%string)
      with (gst_parse_launch (pipeline_description version node0)).
    rewrite Hl, Hb. eexists. split; [reflexivity |]. split; reflexivity. }
  destruct Hc as [priv [Hc [He Hf]]].
  exists priv. repeat split; try assumption.
  unfold cheese_camera_device_new. rewrite Hc. simpl.
  unfold cheese_camera_device_initable_init. rewrite He. reflexivity.
Qed.

Lemma bus_error_failed_initialization_witness :
  let posted :=
    {| message_src := "source";
       message_error := {| domain := "gst-resource-error-quark"; code := 5;
                           message := "Cannot identify device" |};
       message_debug := None |} in
  let pipeline :=
    {| pipeline_state := GST_STATE_CHANGE_FAILURE;
       pipeline_bus_error := Some posted;
       pipeline_source_caps := [] |} in
  (GstModel.launches pipeline (pipeline_description 2 (Some "/dev/video0"%string))
   = (Some pipeline, None)
   /\ pipeline_bus_error pipeline = Some posted)
  /\ exists priv,
      construct_device (GstModel.launches pipeline) GstModel.caps_intersect 0
        (Some "uuid"%string) (Some "/dev/video0"%string)
        (Some "camera"%string) 2 = Returns priv
      /\ construct_error priv
         = Some {| domain := CHEESE_CAMERA_DEVICE_ERROR;
                   code := CHEESE_CAMERA_DEVICE_ERROR_FAILED_INITIALIZATION;
                   message :=
                     "Failed to initialize device /dev/video0 for capability probing"
                |}
      /\ formats priv = []
      /\ cheese_camera_device_new (GstModel.launches pipeline)
           GstModel.caps_intersect 0 (Some "uuid"%string)
           (Some "/dev/video0"%string) (Some "camera"%string) 2 true
         = Returns (None, construct_error priv).
Proof.
  intros posted pipeline.
  assert (H : GstModel.launches pipeline
                (pipeline_description 2 (Some "/dev/video0"%string))
              = (Some pipeline, None)
              /\ pipeline_bus_error pipeline = Some posted)
    by (split; reflexivity).
  split; [exact H |].
  destruct H as [H1 H2].
  exact (bus_error_failed_initialization
           (GstModel.launches pipeline) GstModel.caps_intersect
           0 (Some "uuid"%string) (Some "/dev/video0"%string)
           (Some "camera"%string) 2 pipeline posted H1 H2).
Defined.

(** ** What [add_format] and the derivation keep *)

Lemma dims_injective (f g : CheeseVideoFormat) : dims f = dims g -> f = g.
Proof.
  destruct f, g. unfold dims. simpl. intros H. inversion H. reflexivity.
Qed.

Lemma format_listed_In (l : list CheeseVideoFormat) (f : CheeseVideoFormat) :
  format_listed l f = true <-> In f l.
Proof.
  rewrite format_listed_true. split; intros H.
  - apply in_map_iff in H. destruct H as [g [Hg Hin]].
    apply dims_injective in Hg. now subst g.
  - now apply in_map.
Qed.

Lemma with_format_In (l : list CheeseVideoFormat) (f g : CheeseVideoFormat) :
  In g (with_format l f) <-> In g l \/ g = f.
Proof.
  unfold with_format. destruct (format_listed l f) eqn:E.
  - apply format_listed_In in E. split; [now left |].
    intros [H | ->]; assumption.
  - rewrite in_app_iff. simpl. intuition.
Qed.

Lemma fold_with_format_In (candidates : list CheeseVideoFormat)
  (g : CheeseVideoFormat) :
  forall l, In g (fold_left with_format candidates l)
            <-> In g l \/ In g candidates.
Proof.
  induction candidates as [| f rest IH]; intros l; simpl.
  - split; [now left | intros [H | []]; exact H].
  - rewrite IH, with_format_In. split; intros H.
    + destruct H as [[H | ->] | H]; auto.
    + destruct H as [H | [-> | H]]; auto.
Qed.

Lemma fold_with_format_length (candidates : list CheeseVideoFormat) :
  forall l, (List.length (fold_left with_format candidates l)
             <= List.length l + List.length candidates)%nat.
Proof.
  induction candidates as [| f rest IH]; intros l; simpl; [lia |].
  specialize (IH (with_format l f)).
  assert (List.length (with_format l f) <= S (List.length l))%nat.
  { unfold with_format. destruct (format_listed l f); [lia |].
    rewrite length_app. simpl. lia. }
  lia.
Qed.


(** X3.  Adding a format never removes or moves an entry: the old list is
    a prefix of the new one, which is longer by at most one entry and
    holds the size of the format; nothing but the list changes; and adding
    the same format again changes nothing. *)
Theorem add_format_extends (priv : CheeseCameraDevicePrivate)
  (format : CheeseVideoFormat) :
  (exists added,
      formats (cheese_camera_device_add_format priv format)
      = formats priv ++ added
      /\ (List.length added <= 1)%nat)
  /\ In format (formats (cheese_camera_device_add_format priv format))
  /\ set_formats (cheese_camera_device_add_format priv format) (formats priv)
     = priv
  /\ cheese_camera_device_add_format
       (cheese_camera_device_add_format priv format) format
     = cheese_camera_device_add_format priv format.
Proof.
  assert (Hin : In format
                  (formats (cheese_camera_device_add_format priv format))).
  { rewrite add_format_unfold. simpl. apply with_format_In. now right. }
  split; [| split; [exact Hin | split]].
  - rewrite add_format_unfold. simpl. unfold with_format.
    destruct (format_listed (formats priv) format).
    + exists []. rewrite app_nil_r. split; [reflexivity | simpl; lia].
    + exists [ format ]. split; [reflexivity | simpl; lia].
  - rewrite add_format_unfold. destruct priv; reflexivity.
  - rewrite (add_format_unfold (cheese_camera_device_add_format priv format)).
    apply format_listed_In in Hin. unfold with_format. rewrite Hin.
    apply set_formats_same.
Qed.

(** X4.  Deriving the format table changes nothing but the format list,
    in whatever state it is left; it builds the list from the stored caps
    alone, so the list held before does not matter and deriving again
    from the result gives the same result. *)
Theorem update_format_table_rebuilds (fuel : nat)
  (priv : CheeseCameraDevicePrivate) (before : list CheeseVideoFormat) :
  set_formats (state_of (cheese_camera_device_update_format_table fuel priv))
    (formats priv) = priv
  /\ cheese_camera_device_update_format_table fuel (set_formats priv before)
     = cheese_camera_device_update_format_table fuel priv
  /\ cheese_camera_device_update_format_table fuel
       (state_of (cheese_camera_device_update_format_table fuel priv))
     = cheese_camera_device_update_format_table fuel priv.
Proof.
  destruct (update_format_table_offers fuel priv) as [candidates H].
  split; [| split].
  - rewrite H. destruct priv; reflexivity.
  - reflexivity.
  - rewrite H. reflexivity.
Qed.

(** ** The sorted query on every device *)

(** X5.  GetFormats returns the formats of the list, each exactly as often
    as the list holds it, whatever the comparison makes of their areas:
    the result is a rearrangement of the list, of the same length, and
    the best format is missing exactly when the list is empty. *)
Theorem get_format_list_rearranges (priv : CheeseCameraDevicePrivate) :
  Permutation (cheese_camera_device_get_format_list priv) (formats priv)
  /\ List.length (cheese_camera_device_get_format_list priv)
     = List.length (formats priv)
  /\ (forall f, In f (cheese_camera_device_get_format_list priv)
                <-> In f (formats priv))
  /\ (cheese_camera_device_get_best_format priv = None
      <-> formats priv = []).
Proof.
  assert (P : Permutation (cheese_camera_device_get_format_list priv)
                (formats priv)) by apply g_list_sort_perm.
  split; [exact P | split; [| split]].
  - apply Permutation_length, P.
  - intros f. split; apply Permutation_in; [exact P | symmetry; exact P].
  - unfold cheese_camera_device_get_best_format.
    destruct (cheese_camera_device_get_format_list priv) as [| f l] eqn:E.
    + split; [intros _ | reflexivity].
      apply Permutation_nil. exact P.
    + split; [discriminate |]. intros Hnil. rewrite Hnil in P.
      symmetry in P. apply Permutation_nil in P. discriminate.
Qed.

(** ** Ties keep their order *)

Lemma filter_none {A : Type} (p : A -> bool) (l : list A) :
  (forall x, In x l -> p x = false) -> filter p l = [].
Proof.
  induction l as [| a l IH]; intros H; simpl; [reflexivity |].
  rewrite (H a (or_introl eq_refl)). apply IH.
  intros x Hx. apply H. now right.
Qed.

Section GListSortStable.

Context {A : Type} (compare_func : A -> A -> Z) (key : A -> Z).

Lemma difference_of_incl (l l' : list A) :
  incl l' l -> difference_of compare_func key l ->
  difference_of compare_func key l'.
Proof. intros Hi Hd a b Ha Hb. apply Hd; apply Hi; assumption. Qed.

Lemma difference_of_decides (l : list A) :
  difference_of compare_func key l ->
  decides compare_func (fun a b => key a >= key b) l.
Proof. intros Hd a b Ha Hb. rewrite (Hd a b Ha Hb). lia. Qed.

(** Merging keeps the elements of one key in the order first part, second
    part, as long as the first part is sorted. *)
Lemma g_list_sort_merge_stable (k : Z) (l1 : list A) :
  forall l2,
    difference_of compare_func key (l1 ++ l2) ->
    StronglySorted (fun a b => key a >= key b) l1 ->
    filter (fun x => key x =? k) (g_list_sort_merge compare_func l1 l2)
    = filter (fun x => key x =? k) l1 ++ filter (fun x => key x =? k) l2.
Proof.
  induction l1 as [| a l1 IH1]; intros l2.
  - intros _ _. now rewrite g_list_sort_merge_nil_l.
  - induction l2 as [| b l2 IH2]; intros Hd S1.
    + now rewrite g_list_sort_merge_nil_r, app_nil_r.
    + rewrite g_list_sort_merge_cons.
      pose proof (StronglySorted_inv S1) as [S1' F1].
      assert (Hab : compare_func a b = key b - key a).
      { apply Hd; apply in_or_app; [left | right]; now left. }
      assert (Hc : forall x l,
                 filter (fun x => key x =? k) (x :: l)
                 = if key x =? k
                   then x :: filter (fun x => key x =? k) l
                   else filter (fun x => key x =? k) l) by reflexivity.
      destruct (Z.leb_spec (compare_func a b) 0) as [Hle | Hgt].
      * rewrite (Hc a (g_list_sort_merge _ _ _)), (Hc a l1), IH1;
          [| | exact S1'].
        -- destruct (key a =? k); reflexivity.
        -- eapply difference_of_incl; [| exact Hd].
           intros x Hx. now right.
      * rewrite (Hc b (g_list_sort_merge _ _ _)), (Hc b l2), IH2;
          [| | exact S1].
        -- destruct (key b =? k) eqn:Eb; [| reflexivity].
           apply Z.eqb_eq in Eb.
           rewrite (filter_none (fun x => key x =? k) (a :: l1)).
           ++ reflexivity.
           ++ intros x [<- | Hx]; apply Z.eqb_neq; [lia |].
              rewrite Forall_forall in F1. specialize (F1 x Hx). lia.
        -- eapply difference_of_incl; [| exact Hd].
           intros x Hx. apply in_app_or in Hx. apply in_or_app.
           destruct Hx as [Hx | Hx]; [now left | right; now right].
Qed.

Lemma g_list_sort_real_stable (k : Z) (fuel : nat) :
  forall l, (List.length l <= fuel)%nat ->
            difference_of compare_func key l ->
            filter (fun x => key x =? k) (g_list_sort_real compare_func fuel l)
            = filter (fun x => key x =? k) l.
Proof.
  induction fuel as [| fuel IH]; intros l Hlen Hd; [reflexivity |].
  destruct l as [| a [| b l]]; try reflexivity.
  cbn [g_list_sort_real].
  pose proof (halves_shorter a b l) as [Hf Hs].
  set (half := Nat.div2 (List.length (a :: b :: l))) in *.
  cbv zeta in Hf, Hs. fold half in Hf, Hs.
  pose proof (firstn_skipn half (a :: b :: l)) as Hcut.
  assert (Hd1 : difference_of compare_func key (firstn half (a :: b :: l))).
  { eapply difference_of_incl; [| exact Hd].
    intros x Hx. rewrite <- Hcut. apply in_or_app. now left. }
  assert (Hd2 : difference_of compare_func key (skipn half (a :: b :: l))).
  { eapply difference_of_incl; [| exact Hd].
    intros x Hx. rewrite <- Hcut. apply in_or_app. now right. }
  rewrite g_list_sort_merge_stable.
  - rewrite !IH by (assumption || lia).
    rewrite <- filter_app, Hcut. reflexivity.
  - eapply difference_of_incl; [| exact Hd].
    intros x Hx. rewrite <- Hcut. apply in_app_or in Hx. apply in_or_app.
    destruct Hx as [Hx | Hx]; [left | right];
      eapply Permutation_in; try exact Hx; apply g_list_sort_real_perm.
  - apply g_list_sort_real_sorted; [intros x y z; lia | lia |].
    apply difference_of_decides, Hd1.
Qed.

Lemma g_list_sort_stable (k : Z) (l : list A) :
  difference_of compare_func key l ->
  filter (fun x => key x =? k) (g_list_sort compare_func l)
  = filter (fun x => key x =? k) l.
Proof. apply g_list_sort_real_stable. apply le_n. Qed.

End GListSortStable.

Lemma compare_formats_difference (l : list CheeseVideoFormat) :
  Forall area_fits l -> difference_of compare_formats area l.
Proof.
  intros Hfit a b Ha Hb. rewrite Forall_forall in Hfit.
  apply compare_formats_exact; apply Hfit; assumption.
Qed.

(** X6.  Where the area of every listed format is between 0 and
    [G_MAXINT], GetFormats keeps formats of equal area in the order in
    which they were listed: for every area, the formats of that area come
    in the same order in the result as in the format list. *)
Theorem get_format_list_stable (priv : CheeseCameraDevicePrivate) (k : Z) :
  Forall area_fits (formats priv) ->
  of_area k (cheese_camera_device_get_format_list priv)
  = of_area k (formats priv).
Proof.
  intros Hfit. unfold of_area, cheese_camera_device_get_format_list.
  apply (g_list_sort_stable compare_formats area).
  apply compare_formats_difference, Hfit.
Qed.

Lemma get_format_list_stable_witness :
  let priv :=
    set_formats cheese_camera_device_init
      [ {| width := 320; height := 240 |}; {| width := 640; height := 480 |};
        {| width := 240; height := 320 |}; {| width := 160; height := 120 |} ] in
  Forall area_fits (formats priv)
  /\ of_area 76800 (cheese_camera_device_get_format_list priv)
     = [ {| width := 320; height := 240 |}; {| width := 240; height := 320 |} ].
Proof.
  intros priv.
  assert (H : Forall area_fits (formats priv))
    by (repeat constructor; unfold area, Gint.G_MAXINT; simpl; lia).
  split; [exact H |].
  exact (get_format_list_stable priv 76800 H).
Defined.

(** X7.  Where the area of every listed format is between 0 and
    [G_MAXINT] and the list is not empty, the best format is the head of
    GetFormats, it is one of the listed formats, no listed format has a
    larger area, and among the listed formats of its area it is the one
    listed first. *)
Theorem get_best_format_largest (priv : CheeseCameraDevicePrivate) :
  Forall area_fits (formats priv) -> formats priv <> [] ->
  exists best,
    cheese_camera_device_get_best_format priv = Some best
    /\ hd_error (cheese_camera_device_get_format_list priv) = Some best
    /\ In best (formats priv)
    /\ (forall f, In f (formats priv) -> area f <= area best)
    /\ hd_error (of_area (area best) (formats priv)) = Some best.
Proof.
  intros Hfit Hne.
  assert (P : Permutation (cheese_camera_device_get_format_list priv)
                (formats priv)) by apply g_list_sort_perm.
  assert (S : StronglySorted (fun f1 f2 => area f1 >= area f2)
                (cheese_camera_device_get_format_list priv)).
  { apply g_list_sort_sorted; [intros a b c; lia |].
    apply difference_of_decides, compare_formats_difference, Hfit. }
  pose proof (g_list_sort_stable compare_formats area) as St.
  unfold cheese_camera_device_get_best_format.
  destruct (cheese_camera_device_get_format_list priv) as [| best rest] eqn:E.
  - exfalso. apply Hne. apply Permutation_nil. exact P.
  - exists best. split; [reflexivity | split; [reflexivity | split; [| split]]].
    + eapply Permutation_in; [exact P | now left].
    + intros f Hf. apply StronglySorted_inv in S. destruct S as [_ F].
      apply (Permutation_in _ (Permutation_sym P)) in Hf.
      destruct Hf as [<- | Hf]; [lia |].
      rewrite Forall_forall in F. specialize (F f Hf). lia.
    + unfold of_area.
      rewrite <- (St (area best) (formats priv)
                    (compare_formats_difference _ Hfit)).
      unfold cheese_camera_device_get_format_list in E.
      unfold g_list_copy in E. rewrite E. simpl.
      rewrite Z.eqb_refl. reflexivity.
Qed.

Lemma get_best_format_largest_witness :
  let priv :=
    set_formats cheese_camera_device_init
      [ {| width := 320; height := 240 |}; {| width := 640; height := 480 |};
        {| width := 480; height := 640 |} ] in
  (Forall area_fits (formats priv) /\ formats priv <> [])
  /\ exists best,
      cheese_camera_device_get_best_format priv = Some best
      /\ hd_error (cheese_camera_device_get_format_list priv) = Some best
      /\ In best (formats priv)
      /\ (forall f, In f (formats priv) -> area f <= area best)
      /\ hd_error (of_area (area best) (formats priv)) = Some best.
Proof.
  intros priv.
  assert (H : Forall area_fits (formats priv) /\ formats priv <> []).
  { split; [| discriminate].
    repeat constructor; unfold area, Gint.G_MAXINT; simpl; lia. }
  split; [exact H |].
  exact (get_best_format_largest priv (proj1 H) (proj2 H)).
Defined.

(** ** The format table of fixed and of ranged descriptions *)

Lemma format_table_loop_fixed (fuel : nat) (structures : list GstStructure) :
  forall priv,
    Forall fixed_description structures ->
    format_table_loop fuel priv structures
    = Returns (add_all priv (map fixed_format structures)).
Proof.
  induction structures as [| s rest IH]; intros priv Hall; [reflexivity |].
  inversion Hall as [| ? ? Hs Hrest]; subst.
  cbn [format_table_loop]. unfold format_table_entry.
  unfold fixed_description in Hs. rewrite Hs. cbn [bind].
  rewrite (IH _ Hrest). reflexivity.
Qed.

(** X8.  When every description of the stored caps has a fixed width, the
    derivation returns within any budget, and the format list holds
    exactly the sizes read from the descriptions (a height that is no int
    reads as 0), each once, so it is no longer than the caps. *)
Theorem fixed_sizes_listed_once (fuel : nat)
  (priv : CheeseCameraDevicePrivate) :
  Forall fixed_description (caps priv) ->
  exists l,
    cheese_camera_device_update_format_table fuel priv
    = Returns (set_formats priv l)
    /\ distinct_sizes l
    /\ (forall f, In f l <-> In f (map fixed_format (caps priv)))
    /\ (List.length l <= List.length (caps priv))%nat.
Proof.
  intros Hfixed. unfold cheese_camera_device_update_format_table.
  rewrite (format_table_loop_fixed fuel (caps priv) _ Hfixed).
  rewrite add_all_unfold. eexists. split; [reflexivity |].
  cbn [formats free_format_list set_formats]. split; [| split].
  - apply fold_with_format_distinct. constructor.
  - intros f. rewrite fold_with_format_In. simpl. tauto.
  - pose proof (fold_with_format_length (map fixed_format (caps priv)) []) as H.
    rewrite length_map in H. exact H.
Qed.

Lemma fixed_sizes_listed_once_witness :
  let priv :=
    set_caps cheese_camera_device_init
      [ GstModel.video "video/x-raw-yuv" (G_INT 640) (G_INT 480);
        GstModel.video "video/x-raw-rgb" (G_INT 640) (G_INT 480);
        GstModel.video "video/x-raw-yuv" (G_INT 320) (G_INT 240) ] in
  Forall fixed_description (caps priv)
  /\ exists l,
      cheese_camera_device_update_format_table 0 priv
      = Returns (set_formats priv l)
      /\ distinct_sizes l
      /\ (forall f, In f l <-> In f (map fixed_format (caps priv)))
      /\ (List.length l <= List.length (caps priv))%nat.
Proof.
  intros priv.
  assert (H : Forall fixed_description (caps priv))
    by (repeat constructor).
  split; [exact H |].
  exact (fixed_sizes_listed_once 0 priv H).
Defined.

Lemma doubled_within (w h max_w max_h : Z) (n : nat) :
  0 < w -> 0 < h ->
  (forall k, (k < n)%nat -> doubling_continues w h max_w max_h k) ->
  Forall (fun f => w <= width f <= max_w /\ h <= height f <= max_h)
    (doubled w h n).
Proof.
  intros Hw Hh Hall. apply Forall_forall. intros f Hin. unfold doubled in Hin.
  apply in_map_iff in Hin. destruct Hin as [k [<- Hk]].
  apply in_seq in Hk. destruct (Hall k ltac:(lia)) as [Cw Ch].
  pose proof (pow2_pos k). simpl. nia.
Qed.

Lemma halved_below (max_w max_h : Z) (n : nat) :
  0 <= max_w -> 0 <= max_h ->
  Forall (fun f => width f <= max_w /\ height f <= max_h)
    (halved max_w max_h n).
Proof.
  intros Hw Hh. apply Forall_forall. intros f Hin. unfold halved in Hin.
  apply in_map_iff in Hin. destruct Hin as [k [<- _]].
  pose proof (pow2_pos k). simpl.
  split; apply Z.quot_le_upper_bound; nia.
Qed.

Lemma format_table_entry_covered (fuel : nat)
  (priv : CheeseCameraDevicePrivate) (s : GstStructure) :
  positive_description s -> (31 <= fuel)%nat ->
  exists candidates,
    format_table_entry fuel priv s = Returns (add_all priv candidates)
    /\ Forall (covers s) candidates
    /\ incl (corner_sizes s) candidates.
Proof.
  unfold positive_description, format_table_entry, gst_structure_get_int,
    covers, corner_sizes.
  intros Hpos Hfuel.
  destruct (gst_structure_get_value (structure_fields s) "width")
    as [[w | min_w max_w | | |] |]; try contradiction;
    destruct (gst_structure_get_value (structure_fields s) "height")
    as [[h | min_h max_h | | |] |]; try contradiction; simpl.
  - exists [ {| width := w; height := h |} ].
    split; [reflexivity | split].
    + constructor; [simpl; split; reflexivity | constructor].
    + apply incl_refl.
  - destruct Hpos as [Hw [Hh [Bw Bh]]].
    destruct (doubling_sweep_returns fuel priv min_w min_h max_w max_h)
      as [n [Hd [Dall Dstop]]]; try lia.
    rewrite Hd. simpl.
    destruct (halving_sweep_returns fuel (add_all priv (doubled min_w min_h n))
                max_w max_h min_w min_h) as [m [Hh' [Hall Hstop]]];
      try lia;
      try (unfold Gint.in_range, Gint.G_MININT, Gint.G_MAXINT in *; lia).
    rewrite Hh'. exists (doubled min_w min_h n ++ halved max_w max_h m).
    split; [now rewrite add_all_app |]. split.
    + apply Forall_app. split.
      * apply doubled_within; [lia | lia | exact Dall].
      * pose proof (halved_above _ _ _ _ _ Hall) as Ha.
        pose proof (halved_below max_w max_h m ltac:(lia) ltac:(lia)) as Hb.
        rewrite Forall_forall in *. intros f Hf.
        specialize (Ha f Hf). specialize (Hb f Hf). simpl in *. lia.
    + intros f [<- | Hf].
      * apply in_or_app. left. destruct n as [| n].
        -- exfalso. apply Dstop. unfold doubling_continues. simpl. lia.
        -- rewrite doubled_S. now left.
      * destruct ((max_w >? min_w) && (max_h >? min_h)) eqn:E;
          [| contradiction].
        destruct Hf as [<- | []]. apply in_or_app. right.
        destruct m as [| m].
        -- exfalso. apply Hstop. apply halving_continues_0. exact E.
        -- rewrite halved_S. now left.
Qed.

Lemma format_table_loop_covered (fuel : nat) (structures : list GstStructure) :
  forall priv,
    Forall positive_description structures -> (31 <= fuel)%nat ->
    exists candidates,
      format_table_loop fuel priv structures
      = Returns (add_all priv candidates)
      /\ (forall f, In f candidates ->
                    exists s, In s structures /\ covers s f)
      /\ (forall s, In s structures -> incl (corner_sizes s) candidates).
Proof.
  induction structures as [| s rest IH]; intros priv Hall Hfuel.
  - exists []. split; [reflexivity | split]; intros x [].
  - inversion Hall as [| ? ? Hs Hrest]; subst. cbn [format_table_loop].
    destruct (format_table_entry_covered fuel priv s Hs Hfuel)
      as [c1 [E1 [C1 K1]]].
    rewrite E1. cbn [bind].
    destruct (IH (add_all priv c1) Hrest Hfuel) as [c2 [E2 [C2 K2]]].
    rewrite E2. exists (c1 ++ c2).
    split; [now rewrite add_all_app |]. split.
    + intros f Hf. apply in_app_or in Hf. destruct Hf as [Hf | Hf].
      * exists s. split; [now left |].
        rewrite Forall_forall in C1. apply C1, Hf.
      * destruct (C2 f Hf) as [s' [Hs' Hc]]. exists s'.
        split; [now right | exact Hc].
    + intros s' [<- | Hs'] f Hf; apply in_or_app.
      * left. apply K1, Hf.
      * right. apply (K2 s' Hs'), Hf.
Qed.

(** X9.  When every description of the stored caps is fixed with positive
    width and height, or ranged with positive minima that do not exceed the
    maxima (the maxima at most 1073741823), the derivation returns within
    31 iterations a loop, every listed format is allowed by one of the
    descriptions (it is the fixed size, or lies within the ranges), and
    the corner sizes of every description are listed: the fixed size, the
    minimum of a range, and the maximum of a range that is larger than the
    minimum in both dimensions. *)
Theorem format_table_within_caps (fuel : nat)
  (priv : CheeseCameraDevicePrivate) :
  Forall positive_description (caps priv) -> (31 <= fuel)%nat ->
  exists l,
    cheese_camera_device_update_format_table fuel priv
    = Returns (set_formats priv l)
    /\ (forall f, In f l -> exists s, In s (caps priv) /\ covers s f)
    /\ (forall s, In s (caps priv) -> incl (corner_sizes s) l).
Proof.
  intros Hpos Hfuel. unfold cheese_camera_device_update_format_table.
  destruct (format_table_loop_covered fuel (caps priv)
              (free_format_list priv) Hpos Hfuel) as [candidates [E [C K]]].
  rewrite E, add_all_unfold. eexists. split; [reflexivity |].
  cbn [formats free_format_list set_formats]. split.
  - intros f Hf. apply fold_with_format_In in Hf.
    destruct Hf as [[] | Hf]. apply C, Hf.
  - intros s Hs f Hf. apply fold_with_format_In. right. apply (K s Hs), Hf.
Qed.

Lemma format_table_within_caps_witness :
  let priv :=
    set_caps cheese_camera_device_init
      [ GstModel.video "video/x-raw-yuv" (GST_INT_RANGE 160 800)
          (GST_INT_RANGE 120 600);
        GstModel.video "video/x-raw-rgb" (G_INT 1280) (G_INT 720) ] in
  (Forall positive_description (caps priv) /\ (31 <= 31)%nat)
  /\ exists l,
      cheese_camera_device_update_format_table 31 priv
      = Returns (set_formats priv l)
      /\ (forall f, In f l -> exists s, In s (caps priv) /\ covers s f)
      /\ (forall s, In s (caps priv) -> incl (corner_sizes s) l).
Proof.
  intros priv.
  assert (H : Forall positive_description (caps priv) /\ (31 <= 31)%nat).
  { split; [| lia].
    repeat constructor; unfold Gint.G_MAXINT; cbn; lia. }
  split; [exact H |].
  exact (format_table_within_caps 31 priv (proj1 H) (proj2 H)).
Defined.

(** ** A range that starts at zero *)

Lemma returned_bind {A : Type} (m : outcome A) (k : A -> outcome A) :
  returned (bind m k (fun x => x))
  = match m with
    | Returns a => returned (k a)
    | Spins _ | Crashes _ => false
    end.
Proof. destruct m; reflexivity. Qed.

Lemma format_table_entry_zero_minimum (fuel : nat)
  (priv : CheeseCameraDevicePrivate) (s : GstStructure) :
  zero_minimum_range s ->
  exists stuck, format_table_entry fuel priv s = Spins stuck.
Proof.
  unfold zero_minimum_range, format_table_entry.
  intros [Hr [Hw [Hh [Mw Mh]]]].
  assert (Hi : G_VALUE_HOLDS_INT
                 (gst_structure_get_value (structure_fields s) "width")
               = false).
  { destruct (gst_structure_get_value (structure_fields s) "width")
      as [[| | | |] |]; try reflexivity; discriminate. }
  rewrite Hi, Hr. cbv zeta. rewrite Hw, Hh.
  destruct (doubling_sweep_from_zero fuel priv _ _ Mw Mh) as [stuck E].
  rewrite E. exists stuck. reflexivity.
Qed.

Lemma format_table_loop_zero_minimum (fuel : nat) (s : GstStructure)
  (structures : list GstStructure) :
  zero_minimum_range s -> In s structures ->
  forall priv, returned (format_table_loop fuel priv structures) = false.
Proof.
  intros Hz. induction structures as [| s0 rest IH]; intros Hin priv;
    [contradiction |].
  cbn [format_table_loop]. rewrite returned_bind.
  destruct Hin as [-> | Hin].
  - destruct (format_table_entry_zero_minimum fuel priv s Hz) as [stuck E].
    rewrite E. reflexivity.
  - destruct (format_table_entry fuel priv s0); try reflexivity.
    apply IH, Hin.
Qed.

(** X10.  When the pipeline of the probe is ready with no error on the
    bus and the filtered caps hold a ranged description whose minimum
    width and height are both 0 (the maxima not negative), the doubling
    loop stays at (0,0): whatever the budget of iterations, neither the
    derivation of the format table nor [cheese_camera_device_new]
    returns. *)
Theorem zero_minimum_range_never_returns
  (gst_parse_launch : string -> option GstPipeline * option GError)
  (gst_caps_intersect : GstCaps -> GstCaps -> GstCaps)
  (uuid0 node0 name0 : option string) (version : Z)
  (pipeline : GstPipeline) (s : GstStructure)
  (fuel : nat) (error : bool) :
  gst_parse_launch (pipeline_description version node0)
  = (Some pipeline, None) ->
  pipeline_bus_error pipeline = None ->
  pipeline_state pipeline = GST_STATE_CHANGE_SUCCESS ->
  In s (gst_caps_intersect (pipeline_source_caps pipeline) policy_filter) ->
  zero_minimum_range s ->
  returned
    (cheese_camera_device_update_format_table fuel
       (filtered_device gst_caps_intersect uuid0 node0 name0 version pipeline))
  = false
  /\ returned
       (cheese_camera_device_new gst_parse_launch gst_caps_intersect fuel
          uuid0 node0 name0 version error) = false.
Proof.
  intros Hl Hb Hs Hin Hz.
  assert (Ht : returned
                 (cheese_camera_device_update_format_table fuel
                    (filtered_device gst_caps_intersect uuid0 node0 name0
                       version pipeline)) = false).
  { unfold cheese_camera_device_update_format_table.
    apply (format_table_loop_zero_minimum fuel s); [exact Hz | exact Hin]. }
  split; [exact Ht |].
  unfold cheese_camera_device_new.
  rewrite (construct_device_ready gst_parse_launch gst_caps_intersect
             uuid0 node0 name0 version pipeline Hl Hb Hs fuel).
  destruct (gst_caps_intersect (pipeline_source_caps pipeline) policy_filter)
    as [| s0 rest] eqn:E; [contradiction |].
  cbn [gst_caps_is_empty negb].
  destruct (cheese_camera_device_update_format_table fuel _);
    [discriminate Ht | reflexivity | reflexivity].
Qed.

Lemma zero_minimum_range_never_returns_witness :
  let s :=
    GstModel.video "video/x-raw-yuv" (GST_INT_RANGE 0 640)
      (GST_INT_RANGE 0 480) in
  let pipeline := GstModel.ready [ s ] in
  (GstModel.launches pipeline (pipeline_description 2 (Some "/dev/video0"%string))
   = (Some pipeline, None)
   /\ pipeline_bus_error pipeline = None
   /\ pipeline_state pipeline = GST_STATE_CHANGE_SUCCESS
   /\ In s (GstModel.caps_intersect (pipeline_source_caps pipeline)
              policy_filter)
   /\ zero_minimum_range s)
  /\ returned
       (cheese_camera_device_new (GstModel.launches pipeline)
          GstModel.caps_intersect 1000 (Some "uuid"%string)
          (Some "/dev/video0"%string) (Some "camera"%string) 2 true)
     = false.
Proof.
  intros s pipeline.
  assert (H : GstModel.launches pipeline
                (pipeline_description 2 (Some "/dev/video0"%string))
              = (Some pipeline, None)
              /\ pipeline_bus_error pipeline = None
              /\ pipeline_state pipeline = GST_STATE_CHANGE_SUCCESS
              /\ In s (GstModel.caps_intersect (pipeline_source_caps pipeline)
                         policy_filter)
              /\ zero_minimum_range s).
  { split; [reflexivity | split; [reflexivity | split; [reflexivity |]]].
    split; [left; reflexivity |].
    unfold zero_minimum_range. cbn. repeat split; lia. }
  split; [exact H |].
  destruct H as [H1 [H2 [H3 [H4 H5]]]].
  exact (proj2 (zero_minimum_range_never_returns
                  (GstModel.launches pipeline) GstModel.caps_intersect
                  (Some "uuid"%string) (Some "/dev/video0"%string)
                  (Some "camera"%string) 2 pipeline s 1000 true
                  H1 H2 H3 H4 H5)).
Defined.

(** ** Identity and properties of the object *)

Lemma probed_identity (priv priv' : CheeseCameraDevicePrivate) :
  probed priv priv' ->
  device_node priv' = device_node priv /\ uuid priv' = uuid priv
  /\ src priv' = src priv /\ name priv' = name priv
  /\ v4lapi_version priv' = v4lapi_version priv.
Proof. intros [c candidates | c | |]; repeat split. Qed.

(** X11.  Whatever the probe does (formats derived, an error stored,
    nothing stored, the derivation looping or faulting), the constructed
    device answers its accessors with the identifier, the device node and
    the name given at construction, and its source element is v4l2src for
    API version 2 and v4lsrc for any other.  The API version property is
    registered with the range 1 to 2: the device reads back the version
    given when it is 1 or 2, and 0 when it is any other value, which
    GObject refuses to store. *)
Theorem construction_keeps_identity
  (gst_parse_launch : string -> option GstPipeline * option GError)
  (gst_caps_intersect : GstCaps -> GstCaps -> GstCaps)
  (fuel : nat) (uuid0 node0 name0 : option string) (version : Z) :
  cheese_camera_device_get_uuid
    (state_of (construct_device gst_parse_launch gst_caps_intersect fuel
                 uuid0 node0 name0 version)) = uuid0
  /\ cheese_camera_device_get_device_node
       (state_of (construct_device gst_parse_launch gst_caps_intersect fuel
                    uuid0 node0 name0 version)) = node0
  /\ cheese_camera_device_get_name
       (state_of (construct_device gst_parse_launch gst_caps_intersect fuel
                    uuid0 node0 name0 version)) = name0
  /\ cheese_camera_device_get_src
       (state_of (construct_device gst_parse_launch gst_caps_intersect fuel
                    uuid0 node0 name0 version))
     = Some (if version =? 2 then "v4l2src"%string else "v4lsrc"%string)
  /\ (1 <= version <= 2 ->
      cheese_camera_device_get_property
        (state_of (construct_device gst_parse_launch gst_caps_intersect fuel
                     uuid0 node0 name0 version))
        PROP_V4LAPI_VERSION (UintValue 0) = UintValue version)
  /\ (version < 1 \/ 2 < version ->
      cheese_camera_device_get_property
        (state_of (construct_device gst_parse_launch gst_caps_intersect fuel
                     uuid0 node0 name0 version))
        PROP_V4LAPI_VERSION (UintValue version) = UintValue 0).
Proof.
  rewrite construct_device_starts.
  pose proof (probed_identity _ _
                (get_caps_probed gst_parse_launch gst_caps_intersect fuel
                   (initial_device uuid0 node0 name0 version)))
    as [Hn [Hu [Hs [Hm Hv]]]].
  unfold cheese_camera_device_get_uuid, cheese_camera_device_get_device_node,
    cheese_camera_device_get_name, cheese_camera_device_get_src,
    cheese_camera_device_get_property.
  cbn [Z.eqb PROP_V4LAPI_VERSION PROP_NAME PROP_DEVICE_NODE PROP_UUID
         Pos.eqb].
  rewrite Hn, Hu, Hs, Hm, Hv.
  cbn [initial_device uuid device_node name src v4lapi_version].
  unfold stored_version, v4lapi_version_valid, V4LAPI_VERSION_MINIMUM,
    V4LAPI_VERSION_MAXIMUM.
  repeat split.
  - intros [Hlo Hhi].
    apply Z.leb_le in Hlo. apply Z.leb_le in Hhi.
    rewrite Hlo, Hhi. reflexivity.
  - intros [Hlo | Hhi].
    + apply Z.leb_gt in Hlo. rewrite Hlo. reflexivity.
    + apply Z.leb_gt in Hhi. rewrite Hhi, andb_false_r. reflexivity.
Qed.

(** X12.  Setting a property and reading it back gives the value set, for
    the three string properties and the API version; setting one property
    leaves what every other property reads as unchanged; an id that is
    none of the four changes nothing when set and leaves the value handed
    in untouched when read; and no property reaches the caps, the format
    list, the source element or the stored error. *)
Theorem property_set_then_get (priv : CheeseCameraDevicePrivate)
  (text : option string) (number : Z) (old : PropertyValue) :
  cheese_camera_device_get_property
    (cheese_camera_device_set_property priv PROP_NAME (StringValue text))
    PROP_NAME old = StringValue text
  /\ cheese_camera_device_get_property
       (cheese_camera_device_set_property priv PROP_DEVICE_NODE
          (StringValue text)) PROP_DEVICE_NODE old = StringValue text
  /\ cheese_camera_device_get_property
       (cheese_camera_device_set_property priv PROP_UUID (StringValue text))
       PROP_UUID old = StringValue text
  /\ cheese_camera_device_get_property
       (cheese_camera_device_set_property priv PROP_V4LAPI_VERSION
          (UintValue number)) PROP_V4LAPI_VERSION old = UintValue number
  /\ (forall id id' value,
         id <> id' ->
         cheese_camera_device_get_property
           (cheese_camera_device_set_property priv id value) id' old
         = cheese_camera_device_get_property priv id' old)
  /\ (forall id value,
         id < PROP_NAME \/ PROP_V4LAPI_VERSION < id ->
         cheese_camera_device_set_property priv id value = priv
         /\ cheese_camera_device_get_property priv id old = old)
  /\ (forall id value,
         caps (cheese_camera_device_set_property priv id value) = caps priv
         /\ formats (cheese_camera_device_set_property priv id value)
            = formats priv
         /\ src (cheese_camera_device_set_property priv id value) = src priv
         /\ construct_error (cheese_camera_device_set_property priv id value)
            = construct_error priv).
Proof.
  repeat (split; [reflexivity |]).
  unfold cheese_camera_device_set_property, cheese_camera_device_get_property,
    PROP_NAME, PROP_DEVICE_NODE, PROP_UUID, PROP_V4LAPI_VERSION.
  split; [| split].
  - intros id id' value Hne.
    destruct (Z.eqb_spec id 1); [subst |];
      [| destruct (Z.eqb_spec id 3); [subst |];
         [| destruct (Z.eqb_spec id 2); [subst |];
            [| destruct (Z.eqb_spec id 4); [subst |]]]];
      destruct (Z.eqb_spec id' 1); try reflexivity; try congruence;
      destruct (Z.eqb_spec id' 2); try reflexivity; try congruence;
      destruct (Z.eqb_spec id' 3); try reflexivity; try congruence;
      destruct (Z.eqb_spec id' 4); try reflexivity; congruence.
  - intros id value Hout.
    destruct (Z.eqb_spec id 1); [lia |].
    destruct (Z.eqb_spec id 3); [lia |].
    destruct (Z.eqb_spec id 2); [lia |].
    destruct (Z.eqb_spec id 4); [lia |].
    split; reflexivity.
  - intros id value.
    destruct (id =? 1); [repeat split |].
    destruct (id =? 3); [repeat split |].
    destruct (id =? 2); [repeat split |].
    destruct (id =? 4); repeat split.
Qed.

(** ** What [cheese_camera_device_new] hands out *)

(** X13.  When [cheese_camera_device_new], called with a place for the
    error, returns, it hands out either the constructed device, which holds
    no construction error, and no error; or no device and the stored
    error, which is of the cheese domain with the unsupported-capabilities
    or the failed-initialization code, the format list then being empty.
    It never hands out a device together with an error, and never the
    not-supported or the unknown code. *)
Theorem new_device_or_error
  (gst_parse_launch : string -> option GstPipeline * option GError)
  (gst_caps_intersect : GstCaps -> GstCaps -> GstCaps)
  (fuel : nat) (uuid0 node0 name0 : option string) (version : Z)
  (result : option CheeseCameraDevicePrivate * option GError) :
  cheese_camera_device_new gst_parse_launch gst_caps_intersect fuel
    uuid0 node0 name0 version true = Returns result ->
  exists priv,
    construct_device gst_parse_launch gst_caps_intersect fuel
      uuid0 node0 name0 version = Returns priv
    /\ ((result = (Some priv, None) /\ construct_error priv = None)
        \/ (exists err,
               result = (None, Some err)
               /\ construct_error priv = Some err
               /\ formats priv = []
               /\ domain err = CHEESE_CAMERA_DEVICE_ERROR
               /\ (code err = CHEESE_CAMERA_DEVICE_ERROR_UNSUPPORTED_CAPS
                   \/ code err
                      = CHEESE_CAMERA_DEVICE_ERROR_FAILED_INITIALIZATION))).
Proof.
  unfold cheese_camera_device_new. intros H.
  destruct (construct_probed gst_parse_launch gst_caps_intersect fuel
              uuid0 node0 name0 version) as [fresh [Hf [Hn [_ Hp]]]].
  destruct (construct_device gst_parse_launch gst_caps_intersect fuel
              uuid0 node0 name0 version) as [priv | priv | priv];
    try discriminate H.
  exists priv. split; [reflexivity |].
  cbn [bind] in H. unfold cheese_camera_device_initable_init in H.
  cbn [state_of] in Hp.
  destruct (construct_error priv) as [err |] eqn:E.
  - right. exists err. inversion H. split; [reflexivity |].
    split; [reflexivity |].
    destruct (probed_error _ _ err Hp Hn E) as [Hsame [Hd Hc]].
    split; [congruence | split; assumption].
  - left. inversion H. split; reflexivity.
Qed.

Lemma new_device_or_error_witness :
  let launch :=
    GstModel.launches
      (GstModel.ready [ GstModel.video "image/jpeg" (G_INT 640) (G_INT 480) ]) in
  let result :=
    (None,
     Some {| domain := CHEESE_CAMERA_DEVICE_ERROR;
             code := CHEESE_CAMERA_DEVICE_ERROR_UNSUPPORTED_CAPS;
             message := "Device capabilities not supported" |}) in
  cheese_camera_device_new launch GstModel.caps_intersect 31
    (Some "uuid"%string) (Some "/dev/video0"%string) (Some "camera"%string)
    2 true = Returns result
  /\ exists priv,
      construct_device launch GstModel.caps_intersect 31
        (Some "uuid"%string) (Some "/dev/video0"%string)
        (Some "camera"%string) 2 = Returns priv
      /\ ((result = (Some priv, None) /\ construct_error priv = None)
          \/ (exists err,
                 result = (None, Some err)
                 /\ construct_error priv = Some err
                 /\ formats priv = []
                 /\ domain err = CHEESE_CAMERA_DEVICE_ERROR
                 /\ (code err = CHEESE_CAMERA_DEVICE_ERROR_UNSUPPORTED_CAPS
                     \/ code err
                        = CHEESE_CAMERA_DEVICE_ERROR_FAILED_INITIALIZATION))).
Proof.
  intros launch result.
  assert (H : cheese_camera_device_new launch GstModel.caps_intersect 31
                (Some "uuid"%string) (Some "/dev/video0"%string)
                (Some "camera"%string) 2 true = Returns result)
    by reflexivity.
  split; [exact H |].
  exact (new_device_or_error launch GstModel.caps_intersect 31
           (Some "uuid"%string) (Some "/dev/video0"%string)
           (Some "camera"%string) 2 result H).
Defined.

(** ** The caps of one format *)

Lemma get_caps_stored_error_caps
  (gst_parse_launch : string -> option GstPipeline * option GError)
  (gst_caps_intersect : GstCaps -> GstCaps -> GstCaps)
  (fuel : nat) (priv : CheeseCameraDevicePrivate) (e : GError) :
  construct_error priv = None -> caps priv = [] ->
  construct_error
    (state_of (cheese_camera_device_get_caps gst_parse_launch
                 gst_caps_intersect fuel priv)) = Some e ->
  caps (state_of (cheese_camera_device_get_caps gst_parse_launch
                    gst_caps_intersect fuel priv)) = [].
Proof.
  unfold cheese_camera_device_get_caps. intros Hn Hc.
  destruct (gst_parse_launch _) as [[pipeline |] [err |]];
    try (simpl; congruence).
  destruct (pipeline_bus_error pipeline); [simpl; congruence |].
  destruct (pipeline_state pipeline); try (simpl; congruence).
  match goal with
  | |- context [set_caps priv ?c] => set (stored := c)
  end.
  destruct (gst_caps_is_empty (caps (set_caps priv stored))) eqn:E;
    cbn [negb].
  - intros _. simpl in *. destruct stored; [reflexivity | discriminate E].
  - destruct (update_format_table_offers fuel (set_caps priv stored))
      as [candidates H].
    rewrite H. simpl. congruence.
Qed.

(** X14.  After a probe whose pipeline was ready with no error on the
    bus, the device holds the intersection of the caps the source offers
    with the policy filter, in whatever state the derivation of the format
    table is left, so the caps of a format are the intersection of the two
    supported families at exactly the width and height of the format with
    that filtered set. *)
Theorem caps_for_format_within_filtered
  (gst_parse_launch : string -> option GstPipeline * option GError)
  (gst_caps_intersect : GstCaps -> GstCaps -> GstCaps)
  (fuel : nat) (uuid0 node0 name0 : option string) (version : Z)
  (pipeline : GstPipeline) (format : CheeseVideoFormat) :
  gst_parse_launch (pipeline_description version node0)
  = (Some pipeline, None) ->
  pipeline_bus_error pipeline = None ->
  pipeline_state pipeline = GST_STATE_CHANGE_SUCCESS ->
  caps (state_of (construct_device gst_parse_launch gst_caps_intersect fuel
                    uuid0 node0 name0 version))
  = gst_caps_intersect (pipeline_source_caps pipeline) policy_filter
  /\ cheese_camera_device_get_caps_for_format gst_caps_intersect
       (state_of (construct_device gst_parse_launch gst_caps_intersect fuel
                    uuid0 node0 name0 version)) format
     = gst_caps_intersect
         [ gst_caps_new_simple_size "video/x-raw-rgb" (width format)
             (height format);
           gst_caps_new_simple_size "video/x-raw-yuv" (width format)
             (height format) ]
         (gst_caps_intersect (pipeline_source_caps pipeline) policy_filter).
Proof.
  intros Hl Hb Hs.
  assert (Hc : caps (state_of (construct_device gst_parse_launch
                                 gst_caps_intersect fuel uuid0 node0 name0
                                 version))
               = gst_caps_intersect (pipeline_source_caps pipeline)
                   policy_filter).
  { rewrite (construct_device_ready gst_parse_launch gst_caps_intersect
               uuid0 node0 name0 version pipeline Hl Hb Hs fuel).
    destruct (negb _); [| reflexivity].
    destruct (update_format_table_offers fuel
                (filtered_device gst_caps_intersect uuid0 node0 name0
                   version pipeline)) as [candidates H].
    rewrite H. reflexivity. }
  split; [exact Hc |].
  unfold cheese_camera_device_get_caps_for_format. rewrite Hc. reflexivity.
Qed.

Lemma caps_for_format_within_filtered_witness :
  let pipeline :=
    GstModel.ready
      [ GstModel.video "video/x-raw-yuv" (GST_INT_RANGE 160 640)
          (GST_INT_RANGE 120 480) ] in
  let device :=
    state_of (construct_device (GstModel.launches pipeline)
                GstModel.caps_intersect 31 (Some "uuid"%string)
                (Some "/dev/video0"%string) (Some "camera"%string) 2) in
  (GstModel.launches pipeline (pipeline_description 2 (Some "/dev/video0"%string))
   = (Some pipeline, None)
   /\ pipeline_bus_error pipeline = None
   /\ pipeline_state pipeline = GST_STATE_CHANGE_SUCCESS)
  /\ cheese_camera_device_get_caps_for_format GstModel.caps_intersect device
       {| width := 320; height := 240 |}
     = GstModel.caps_intersect
         [ gst_caps_new_simple_size "video/x-raw-rgb" 320 240;
           gst_caps_new_simple_size "video/x-raw-yuv" 320 240 ]
         (GstModel.caps_intersect (pipeline_source_caps pipeline)
            policy_filter).
Proof.
  intros pipeline device.
  assert (H : GstModel.launches pipeline
                (pipeline_description 2 (Some "/dev/video0"%string))
              = (Some pipeline, None)
              /\ pipeline_bus_error pipeline = None
              /\ pipeline_state pipeline = GST_STATE_CHANGE_SUCCESS)
    by (repeat split).
  split; [exact H |].
  destruct H as [H1 [H2 H3]].
  exact (proj2 (caps_for_format_within_filtered
                  (GstModel.launches pipeline) GstModel.caps_intersect 31
                  (Some "uuid"%string) (Some "/dev/video0"%string)
                  (Some "camera"%string) 2 pipeline
                  {| width := 320; height := 240 |} H1 H2 H3)).
Defined.

(** X15.  A device whose construction stored an error holds empty caps
    (the empty caps of initialization, or the empty filtered set), so, for
    an intersection that gives the empty caps whenever its second argument
    is empty, the caps of every format are empty. *)
Theorem caps_for_format_after_error
  (gst_parse_launch : string -> option GstPipeline * option GError)
  (gst_caps_intersect : GstCaps -> GstCaps -> GstCaps)
  (fuel : nat) (uuid0 node0 name0 : option string) (version : Z)
  (e : GError) (format : CheeseVideoFormat) :
  (forall c, gst_caps_intersect c [] = []) ->
  construct_error
    (state_of (construct_device gst_parse_launch gst_caps_intersect fuel
                 uuid0 node0 name0 version)) = Some e ->
  caps (state_of (construct_device gst_parse_launch gst_caps_intersect fuel
                    uuid0 node0 name0 version)) = []
  /\ cheese_camera_device_get_caps_for_format gst_caps_intersect
       (state_of (construct_device gst_parse_launch gst_caps_intersect fuel
                    uuid0 node0 name0 version)) format = [].
Proof.
  intros Hempty He.
  assert (Hc : caps (state_of (construct_device gst_parse_launch
                                 gst_caps_intersect fuel uuid0 node0 name0
                                 version)) = []).
  { rewrite construct_device_starts in *.
    eapply get_caps_stored_error_caps; [reflexivity | reflexivity | exact He]. }
  split; [exact Hc |].
  unfold cheese_camera_device_get_caps_for_format. rewrite Hc. apply Hempty.
Qed.

Lemma model_intersect_empty (c : GstCaps) : GstModel.caps_intersect c [] = [].
Proof.
  unfold GstModel.caps_intersect.
  induction c as [| s c IH]; simpl; [reflexivity | exact IH].
Qed.

Lemma caps_for_format_after_error_witness :
  let pipeline :=
    {| pipeline_state := GST_STATE_CHANGE_FAILURE;
       pipeline_bus_error :=
         Some {| message_src := "source";
                 message_error :=
                   {| domain := "gst-resource-error-quark"; code := 5;
                      message := "Cannot identify device" |};
                 message_debug := None |};
       pipeline_source_caps := [] |} in
  let e :=
    {| domain := CHEESE_CAMERA_DEVICE_ERROR;
       code := CHEESE_CAMERA_DEVICE_ERROR_FAILED_INITIALIZATION;
       message :=
         "Failed to initialize device /dev/video0 for capability probing" |} in
  let device :=
    state_of (construct_device (GstModel.launches pipeline)
                GstModel.caps_intersect 0 (Some "uuid"%string)
                (Some "/dev/video0"%string) (Some "camera"%string) 2) in
  ((forall c, GstModel.caps_intersect c [] = [])
   /\ construct_error device = Some e)
  /\ cheese_camera_device_get_caps_for_format GstModel.caps_intersect device
       {| width := 640; height := 480 |} = [].
Proof.
  intros pipeline e device.
  assert (H : (forall c, GstModel.caps_intersect c [] = [])
              /\ construct_error device = Some e)
    by (split; [exact model_intersect_empty | reflexivity]).
  split; [exact H |].
  exact (proj2 (caps_for_format_after_error
                  (GstModel.launches pipeline) GstModel.caps_intersect 0
                  (Some "uuid"%string) (Some "/dev/video0"%string)
                  (Some "camera"%string) 2 e
                  {| width := 640; height := 480 |} (proj1 H) (proj2 H))).
Defined.

(** ** A range without an upper bound *)

Lemma gint_mul_in_range (a b : Z) : Gint.in_range (Gint.mul a b).
Proof.
  unfold Gint.in_range, Gint.mul, Gint.wrap, Gint.G_MININT, Gint.G_MAXINT.
  pose proof (Z.mod_pos_bound (a * b + 2147483648) 4294967296 ltac:(lia)).
  lia.
Qed.

Lemma doubling_sweep_unbounded (fuel : nat) :
  forall priv w h,
    Gint.in_range w -> Gint.in_range h ->
    exists stuck,
      doubling_sweep fuel priv w h Gint.G_MAXINT Gint.G_MAXINT = Spins stuck.
Proof.
  induction fuel as [| fuel IH]; intros priv w h Rw Rh; simpl;
    (replace (w <=? Gint.G_MAXINT) with true
      by (symmetry; apply Z.leb_le; apply Rw));
    (replace (h <=? Gint.G_MAXINT) with true
      by (symmetry; apply Z.leb_le; apply Rh));
    simpl.
  - now exists priv.
  - apply IH; apply gint_mul_in_range.
Qed.

Lemma format_table_loop_stuck (fuel : nat) (s : GstStructure)
  (structures : list GstStructure) :
  (forall priv, exists stuck, format_table_entry fuel priv s = Spins stuck) ->
  In s structures ->
  forall priv, returned (format_table_loop fuel priv structures) = false.
Proof.
  intros Hs. induction structures as [| s0 rest IH]; intros Hin priv;
    [contradiction |].
  cbn [format_table_loop]. rewrite returned_bind.
  destruct Hin as [-> | Hin].
  - destruct (Hs priv) as [stuck E]. rewrite E. reflexivity.
  - destruct (format_table_entry fuel priv s0); try reflexivity.
    apply IH, Hin.
Qed.

(** X16.  When the pipeline of the probe is ready with no error on the
    bus and the filtered caps hold a ranged description whose maximum
    width and height are both [G_MAXINT], the condition of the doubling
    loop holds for every [gint]: whatever the budget of iterations,
    neither the derivation of the format table nor
    [cheese_camera_device_new] returns. *)
Theorem unbounded_range_never_returns
  (gst_parse_launch : string -> option GstPipeline * option GError)
  (gst_caps_intersect : GstCaps -> GstCaps -> GstCaps)
  (uuid0 node0 name0 : option string) (version : Z)
  (pipeline : GstPipeline) (s : GstStructure)
  (fuel : nat) (error : bool) :
  gst_parse_launch (pipeline_description version node0)
  = (Some pipeline, None) ->
  pipeline_bus_error pipeline = None ->
  pipeline_state pipeline = GST_STATE_CHANGE_SUCCESS ->
  In s (gst_caps_intersect (pipeline_source_caps pipeline) policy_filter) ->
  unbounded_range s ->
  returned
    (cheese_camera_device_update_format_table fuel
       (filtered_device gst_caps_intersect uuid0 node0 name0 version pipeline))
  = false
  /\ returned
       (cheese_camera_device_new gst_parse_launch gst_caps_intersect fuel
          uuid0 node0 name0 version error) = false.
Proof.
  intros Hl Hb Hs Hin [Hr [Mw [Mh [Rw Rh]]]].
  assert (Hentry : forall priv, exists stuck,
               format_table_entry fuel priv s = Spins stuck).
  { intros priv. unfold format_table_entry.
    assert (Hi : G_VALUE_HOLDS_INT
                   (gst_structure_get_value (structure_fields s) "width")
                 = false).
    { destruct (gst_structure_get_value (structure_fields s) "width")
        as [[| | | |] |]; try reflexivity; discriminate. }
    rewrite Hi, Hr. cbv zeta. rewrite Mw, Mh.
    destruct (doubling_sweep_unbounded fuel priv _ _ Rw Rh) as [stuck E].
    rewrite E. exists stuck. reflexivity. }
  assert (Ht : returned
                 (cheese_camera_device_update_format_table fuel
                    (filtered_device gst_caps_intersect uuid0 node0 name0
                       version pipeline)) = false).
  { unfold cheese_camera_device_update_format_table.
    apply (format_table_loop_stuck fuel s); [exact Hentry | exact Hin]. }
  split; [exact Ht |].
  unfold cheese_camera_device_new.
  rewrite (construct_device_ready gst_parse_launch gst_caps_intersect
             uuid0 node0 name0 version pipeline Hl Hb Hs fuel).
  destruct (gst_caps_intersect (pipeline_source_caps pipeline) policy_filter)
    as [| s0 rest] eqn:E; [contradiction |].
  cbn [gst_caps_is_empty negb].
  destruct (cheese_camera_device_update_format_table fuel _);
    [discriminate Ht | reflexivity | reflexivity].
Qed.

Lemma unbounded_range_never_returns_witness :
  let s :=
    GstModel.video "video/x-raw-yuv" (GST_INT_RANGE 1 2147483647)
      (GST_INT_RANGE 1 2147483647) in
  let pipeline := GstModel.ready [ s ] in
  (GstModel.launches pipeline (pipeline_description 2 (Some "/dev/video0"%string))
   = (Some pipeline, None)
   /\ pipeline_bus_error pipeline = None
   /\ pipeline_state pipeline = GST_STATE_CHANGE_SUCCESS
   /\ In s (GstModel.caps_intersect (pipeline_source_caps pipeline)
              policy_filter)
   /\ unbounded_range s)
  /\ returned
       (cheese_camera_device_new (GstModel.launches pipeline)
          GstModel.caps_intersect 1000 (Some "uuid"%string)
          (Some "/dev/video0"%string) (Some "camera"%string) 2 true)
     = false.
Proof.
  intros s pipeline.
  assert (H : GstModel.launches pipeline
                (pipeline_description 2 (Some "/dev/video0"%string))
              = (Some pipeline, None)
              /\ pipeline_bus_error pipeline = None
              /\ pipeline_state pipeline = GST_STATE_CHANGE_SUCCESS
              /\ In s (GstModel.caps_intersect (pipeline_source_caps pipeline)
                         policy_filter)
              /\ unbounded_range s).
  { split; [reflexivity | split; [reflexivity | split; [reflexivity |]]].
    split; [left; reflexivity |].
    unfold unbounded_range, Gint.in_range, Gint.G_MININT, Gint.G_MAXINT.
    cbn. repeat split; lia. }
  split; [exact H |].
  destruct H as [H1 [H2 [H3 [H4 H5]]]].
  exact (proj2 (unbounded_range_never_returns
                  (GstModel.launches pipeline) GstModel.caps_intersect
                  (Some "uuid"%string) (Some "/dev/video0"%string)
                  (Some "camera"%string) 2 pipeline s 1000 true
                  H1 H2 H3 H4 H5)).
Defined.

(** ** The halving sweep of a ranged description *)








